(** * X Lead Tracker: the lead collection pipeline and its presentation layer

    A shallow embedding of [x_lead_tracker_ui.py]: the validation block of
    the search button, [initialize_x_client], [create_lead_tracker_agent],
    [track_leads_on_x], the clear button, the score distribution of the
    dashboard tab and the filter and sort of the leads tab.

    Python values are modelled as follows: [int] is [Z]; [str] is the list of
    its code points; a [dict] with literal keys is a [gmap string _]; the
    statements of a function run in a state-and-exception monad whose state
    holds the local [stats] dictionary and the sequence of calls made to the
    user interface, the logger and the external services. *)

From Stdlib Require Import ZArith NArith List Bool Ascii String DecimalString.
From Stdlib Require Import Sorted Permutation.
From stdpp Require Import base decidable option list strings gmap sorting.

Local Open Scope Z_scope.

(** ** Python strings *)

Module PyStr.

(** A Python [str] is a sequence of Unicode code points. *)
Definition pystr := list N.

(** A literal of the source, given by its (ASCII) characters. *)
Definition lit (s : string) : pystr :=
  List.map N_of_ascii (list_ascii_of_string s).

Definition newline : N := 10%N.
Definition dquote : pystr := [34%N].

(** [str.isspace] on one code point: the characters [str.strip()] removes
    when it is called without argument. *)
Definition isspace (c : N) : bool :=
  ((9 <=? c) && (c <=? 13) || (28 <=? c) && (c <=? 32)
   || (c =? 133) || (c =? 160) || (c =? 5760)
   || (8192 <=? c) && (c <=? 8202)
   || (c =? 8232) || (c =? 8233) || (c =? 8239) || (c =? 8287)
   || (c =? 12288))%N.

Fixpoint lstrip (s : pystr) : pystr :=
  match s with
  | [] => []
  | c :: s' => if isspace c then lstrip s' else s
  end.

Definition rstrip (s : pystr) : pystr := rev (lstrip (rev s)).

(** [s.strip()] *)
Definition strip (s : pystr) : pystr := rstrip (lstrip s).

(** [s.split(sep)] for a one-character separator: never an empty list. *)
Fixpoint split (sep : N) (s : pystr) : list pystr :=
  match s with
  | [] => [[]]
  | c :: s' =>
      if N.eqb c sep then [] :: split sep s'
      else match split sep s' with
           | p :: ps => (c :: p) :: ps
           | [] => [[c]]
           end
  end.

(** Truth value of a string: [bool(s)]. *)
Definition truthy (s : pystr) : bool :=
  match s with [] => false | _ :: _ => true end.

(** [a <= b] on strings: lexicographic on code points. *)
Fixpoint leb (a b : pystr) : bool :=
  match a, b with
  | [], _ => true
  | _ :: _, [] => false
  | x :: a', y :: b' =>
      if N.ltb x y then true
      else if N.eqb x y then leb a' b' else false
  end.

(** Decimal rendering of a natural number, as [str(n)] gives it. *)
Definition of_nat (n : nat) : pystr :=
  lit (NilEmpty.string_of_uint (Nat.to_uint n)).

Definition of_Z (z : Z) : pystr :=
  if z <? 0 then lit "-" ++ of_nat (Z.abs_nat z) else of_nat (Z.abs_nat z).

End PyStr.

Import PyStr.

(** ** Data model *)

(** Values stored in the [stats] dictionary. *)
Inductive pyval :=
| VInt (z : Z)
| VStr (s : pystr)
| VNone.

Global Instance pyval_eq_dec : EqDecision pyval.
Proof. solve_decision. Defined.

(** Exceptions derived from [Exception]: the only ones the two [except]
    clauses of [track_leads_on_x] catch. *)
Inductive exn :=
| Exception (msg : pystr)
| KeyError (key : string)
| TypeError
| ZeroDivisionError.

Global Instance exn_eq_dec : EqDecision exn.
Proof. solve_decision. Defined.

Record engagement := {
  likes : option Z;
  retweets : option Z;
  replies : option Z
}.

(** A lead is a dictionary that the script reads only through
    [lead.get(key, default)]: every key may be absent. *)
Record lead := {
  id : option pystr;
  author : option pystr;
  content : option pystr;
  url : option pystr;
  engagement_metrics : option engagement;
  score : option Z;
  business_context : option pystr;
  decision_authority : option pystr;
  pain_points : option (list pystr);
  budget_indicators : option pystr;
  red_flags : option pystr;
  recommendation : option pystr
}.

Record post := {
  post_author : option pystr;
  post_content : option pystr;
  post_url : option pystr;
  post_status : option pystr
}.

Global Instance engagement_eq_dec : EqDecision engagement.
Proof. solve_decision. Defined.
Global Instance lead_eq_dec : EqDecision lead.
Proof. solve_decision. Defined.
Global Instance post_eq_dec : EqDecision post.
Proof. solve_decision. Defined.

(** [st.session_state] *)
Record session_state := {
  leads : list lead;
  all_posts : list post;
  search_stats : gmap string pyval
}.

(** The widgets of the sidebar, as read when the script runs. *)
Record inputs := {
  openai_api_key : pystr;
  x_consumer_key : pystr;
  x_consumer_secret : pystr;
  x_access_token : pystr;
  x_access_token_secret : pystr;
  x_bearer_token : pystr;
  search_queries_text : pystr;
  max_posts_per_query : Z;
  min_lead_score : Z
}.

(** ** External collaborators *)

(** The arguments given to agno's [XTools] constructor. *)
Record x_tools := {
  xt_consumer_key : pystr;
  xt_consumer_secret : pystr;
  xt_access_token : pystr;
  xt_access_token_secret : pystr;
  xt_bearer_token : pystr;
  include_post_metrics : bool;
  wait_on_rate_limit : bool
}.

(** The arguments given to agno's [Agent] constructor. *)
Record agent := {
  model_id : pystr;
  api_key : pystr;
  tools : list x_tools;
  instructions : list pystr;
  markdown : bool
}.

Global Instance x_tools_eq_dec : EqDecision x_tools.
Proof. solve_decision. Defined.
Global Instance agent_eq_dec : EqDecision agent.
Proof. solve_decision. Defined.

(** What the outside world answers during one run. Nothing is assumed about
    it: each constructor may raise, and each call of [agent.run] (numbered by
    the index of its query) may return a text or raise. *)
Record world := {
  XTools_raises : x_tools -> option exn;
  Agent_raises : agent -> option exn;
  agent_run : agent -> nat -> pystr -> exn + pystr;
  now : pystr
}.

(** ** Calls observed from outside

    Every call to the user interface, to the logger and to the agent library
    is recorded in order; a call to the agent library is recorded with what
    the world answered. *)

(** The texts shown to the operator or logged, with their interpolated
    values. *)
Inductive message :=
| MsgInitializingClient
| MsgClientInitialized
| MsgClientInitError (e : exn)
| MsgCreatingAgent
| MsgSearching (query : pystr) (k total : nat)
| MsgAnalyzing (query : pystr)
| MsgCompleted (query : pystr)
| MsgQueryError (query : pystr) (e : exn)
| MsgSearchCompleted
| MsgTrackingError (e : exn)
| MsgNeedOpenAIKey
| MsgNeedXCredentials
| MsgNeedQuery
| MsgSearchingSpinner
| MsgFound (n : nat)
| MsgNoLeads
| MsgCleared.

Inductive event :=
| StProgress (num den : nat)
| StEmpty
| StatusText (m : message)
| StWarning (m : message)
| StError (m : message)
| StSuccess (m : message)
| StInfo (m : message)
| StSpinner (m : message)
| StRerun
| LoggerInfo (m : message)
| LoggerError (m : message)
| NewXTools (x : x_tools) (raised : option exn)
| NewAgent (a : agent) (raised : option exn)
| AgentRun (idx : nat) (prompt : pystr) (answer : exn + pystr).

Global Instance message_eq_dec : EqDecision message.
Proof. solve_decision. Defined.
Global Instance event_eq_dec : EqDecision event.
Proof. solve_decision. Defined.

(** ** The monad of statements *)

Module Py.

Record state := {
  session : session_state;
  stats : gmap string pyval;   (* the local dictionary of the running call *)
  trace : list event
}.

Inductive outcome (A : Type) :=
| Returns (a : A)
| Raises (e : exn).
Arguments Returns {A} a.
Arguments Raises {A} e.

Definition M (A : Type) : Type := state -> outcome A * state.

Definition ret {A} (a : A) : M A := fun s => (Returns a, s).

Definition bind {A B} (m : M A) (f : A -> M B) : M B := fun s =>
  match m s with
  | (Returns a, s') => f a s'
  | (Raises e, s') => (Raises e, s')
  end.

Definition raise {A} (e : exn) : M A := fun s => (Raises e, s).

(** [try: body except Exception as e: handler]; what [body] did to the
    state before raising stays done. *)
Definition try_except {A} (body : M A) (handler : exn -> M A) : M A := fun s =>
  match body s with
  | (Returns a, s') => (Returns a, s')
  | (Raises e, s') => handler e s'
  end.

Definition emit (ev : event) : M unit := fun s =>
  (Returns tt, {| session := session s; stats := stats s; trace := trace s ++ [ev] |}).

Definition get_stats : M (gmap string pyval) := fun s => (Returns (stats s), s).

Definition set_stats (d : gmap string pyval) : M unit := fun s =>
  (Returns tt, {| session := session s; stats := d; trace := trace s |}).

Definition set_session (ss : session_state) : M unit := fun s =>
  (Returns tt, {| session := ss; stats := stats s; trace := trace s |}).

(** [stats[key] = v] *)
Definition stats_setitem (key : string) (v : pyval) : M unit := fun s =>
  (Returns tt, {| session := session s; stats := <[key := v]> (stats s); trace := trace s |}).

(** [stats[key] += n] *)
Definition stats_iadd (key : string) (n : Z) : M unit := fun s =>
  match stats s !! key with
  | Some (VInt z) =>
      (Returns tt, {| session := session s; stats := <[key := VInt (z + n)]> (stats s);
                      trace := trace s |})
  | Some _ => (Raises TypeError, s)
  | None => (Raises (KeyError key), s)
  end.

(** [for idx, x in enumerate(xs): body], counting from [idx]. *)
Fixpoint for_enumerate {A} (idx : nat) (xs : list A) (body : nat -> A -> M unit) : M unit :=
  match xs with
  | [] => ret tt
  | x :: xs' => bind (body idx x) (fun _ => for_enumerate (S idx) xs' body)
  end.

End Py.

Import Py.

Global Instance M_ret : MRet M := @ret.
Global Instance M_bind : MBind M := fun A B f m => bind m f.

(** ** The pipeline *)

(** Calling a constructor of the agent library. *)
Definition new_XTools (w : world) (x : x_tools) : M x_tools :=
  emit (NewXTools x (XTools_raises w x));;
  match XTools_raises w x with
  | Some e => raise e
  | None => mret x
  end.

Definition new_Agent (w : world) (a : agent) : M agent :=
  emit (NewAgent a (Agent_raises w a));;
  match Agent_raises w a with
  | Some e => raise e
  | None => mret a
  end.

(** [agent.run(prompt)], for the query of index [idx]. *)
Definition run_agent (w : world) (a : agent) (idx : nat) (prompt : pystr) : M pystr :=
  emit (AgentRun idx prompt (agent_run w a idx prompt));;
  match agent_run w a idx prompt with
  | inl e => raise e
  | inr response => mret response
  end.

Definition initialize_x_client (w : world)
    (consumer_key consumer_secret access_token access_token_secret bearer_token : pystr)
    : M x_tools :=
  try_except
    (x_tools ← new_XTools w
       {| xt_consumer_key := consumer_key;
          xt_consumer_secret := consumer_secret;
          xt_access_token := access_token;
          xt_access_token_secret := access_token_secret;
          xt_bearer_token := bearer_token;
          include_post_metrics := true;
          wait_on_rate_limit := true |};
     emit (LoggerInfo MsgClientInitialized);;
     mret x_tools)
    (fun e =>
       emit (LoggerError (MsgClientInitError e));;
       raise e).

Definition lead_tracker_instructions : list pystr :=
  List.map lit
    [ "You are a B2B lead qualification specialist for advanced business intelligence and analytics software.";
      "";
      "TARGET CUSTOMER PROFILE:";
      "- Businesses needing business analysis or BI dashboards";
      "- Companies struggling with data visualization or reporting";
      "- Organizations looking for analytics solutions";
      "- Decision-makers or influencers in data/analytics roles";
      "";
      "WHAT TO LOOK FOR:";
      "1. Business Pain Points:";
      "   - Need for better reporting or dashboards";
      "   - Data visualization challenges";
      "   - Analytics tool evaluation";
      "   - Enterprise reporting needs";
      "";
      "2. Decision-Maker Indicators:";
      "   - Job titles (Manager, Director, VP, CEO, CTO, Data Lead)";
      "   - Company/organization mentions";
      "   - Budget or procurement discussions";
      "   - Team or organizational needs";
      "";
      "3. RED FLAGS (Score LOW):";
      "   - Student projects or homework";
      "   - Personal hobby projects";
      "   - Tutorial/learning requests";
      "   - Free-only requirements";
      "";
      "SCORING GUIDE:";
      "9-10: Clear business need, decision-maker, budget indication";
      "7-8: Business need evident, likely has influence";
      "5-6: Possible business context, relevant needs";
      "3-4: Unclear if business, vague requirements";
      "1-2: Likely personal/student project";
      "";
      "Be strict - we want quality B2B leads only." ]%string.

Definition create_lead_tracker_agent (w : world) (openai_api_key : pystr) (x_tools : x_tools)
    : M agent :=
  agent ← new_Agent w
    {| model_id := lit "gpt-4o";
       api_key := openai_api_key;
       tools := [x_tools];
       instructions := lead_tracker_instructions;
       markdown := true |};
  mret agent.

(** The f-string of the search prompt. *)
Definition search_prompt (query : pystr) (max_posts_per_query : Z) : pystr :=
  let nl := [newline] in
  let ind := lit "                " in
  nl ++ ind ++ lit "Search X for posts matching: " ++ dquote ++ query ++ dquote ++ nl
     ++ ind ++ nl
     ++ ind ++ lit "Find recent posts (last 7 days) where people are discussing:" ++ nl
     ++ ind ++ lit "- Need for BI tools or dashboards" ++ nl
     ++ ind ++ lit "- Data visualization challenges" ++ nl
     ++ ind ++ lit "- Business analytics requirements" ++ nl
     ++ ind ++ lit "- Reporting and analytics pain points" ++ nl
     ++ ind ++ nl
     ++ ind ++ lit "Return up to " ++ of_Z max_posts_per_query
            ++ lit " most relevant posts with:" ++ nl
     ++ ind ++ lit "- Post ID" ++ nl
     ++ ind ++ lit "- Author username" ++ nl
     ++ ind ++ lit "- Post content/text" ++ nl
     ++ ind ++ lit "- Post URL" ++ nl
     ++ ind ++ lit "- Engagement metrics (likes, retweets, replies)" ++ nl
     ++ ind ++ nl
     ++ ind ++ lit "Format each post clearly with all details." ++ nl
     ++ ind.

Definition initial_stats : gmap string pyval :=
  <["total_posts" := VInt 0]>
    (<["analyzed_posts" := VInt 0]>
       (<["leads_found" := VInt 0]> ∅)).

(** [num / den] on integers: the fraction, or [ZeroDivisionError] when the
    divisor is zero. *)
Definition true_div (num den : nat) : M (nat * nat) :=
  if Nat.eqb den 0 then raise ZeroDivisionError else mret (num, den).

(** The body of the [for] loop of [track_leads_on_x]. The progress update of
    line 364 is outside the inner [try]. *)
Definition process_query (w : world) (agent : agent) (max_posts_per_query : Z)
    (total_queries : nat) (idx : nat) (query : pystr) : M unit :=
  emit (StatusText (MsgSearching query (idx + 1) total_queries));;
  try_except
    (emit (StatusText (MsgAnalyzing query));;
     response ← run_agent w agent idx (search_prompt query max_posts_per_query);
     (* the response is not parsed *)
     emit (StatusText (MsgCompleted query));;
     stats_iadd "total_posts" max_posts_per_query)
    (fun e =>
       emit (StWarning (MsgQueryError query e));;
       emit (LoggerError (MsgQueryError query e)));;
  fraction ← true_div (idx + 1) total_queries;
  emit (StProgress fraction.1 fraction.2).

Definition track_leads_on_x (w : world)
    (search_queries : list pystr)
    (openai_api_key x_consumer_key x_consumer_secret x_access_token
       x_access_token_secret x_bearer_token : pystr)
    (max_posts_per_query min_lead_score : Z)
    : M (list lead * list post * gmap string pyval) :=
  let leads : list lead := [] in
  let all_posts : list post := [] in
  set_stats initial_stats;;
  emit (StProgress 0 1);;
  emit StEmpty;;
  try_except
    (emit (StatusText MsgInitializingClient);;
     x_tools ← initialize_x_client w x_consumer_key x_consumer_secret x_access_token
                 x_access_token_secret x_bearer_token;
     emit (StatusText MsgCreatingAgent);;
     agent ← create_lead_tracker_agent w openai_api_key x_tools;
     let total_queries := length search_queries in
     for_enumerate 0 search_queries
       (process_query w agent max_posts_per_query total_queries);;
     emit (StProgress 1 1);;
     emit (StatusText MsgSearchCompleted);;
     stats_setitem "last_search" (VStr (now w));;
     stats ← get_stats;
     mret (leads, all_posts, stats))
    (fun e =>
       emit (StError (MsgTrackingError e));;
       emit (LoggerError (MsgTrackingError e));;
       stats ← get_stats;
       mret ([], [], stats)).

(** ** The two buttons *)

Definition cleared_stats : gmap string pyval :=
  <["total_posts" := VInt 0]>
    (<["analyzed_posts" := VInt 0]>
       (<["leads_found" := VInt 0]>
          (<["last_search" := VNone]> ∅))).

(** [if clear_button:] *)
Definition clear_button_handler : M unit :=
  set_session {| leads := []; all_posts := []; search_stats := cleared_stats |};;
  emit (StSuccess MsgCleared);;
  emit StRerun.

(** [[q.strip() for q in search_queries_text.split('\n') if q.strip()]] *)
Definition search_queries_of (search_queries_text : pystr) : list pystr :=
  List.map strip (List.filter (fun q => truthy (strip q)) (split newline search_queries_text)).

(** [all([...])] on strings. *)
Definition all_truthy (xs : list pystr) : bool := forallb truthy xs.

(** [if search_button:] *)
Definition search_button_handler (w : world) (i : inputs) : M unit :=
  if negb (truthy (openai_api_key i)) || bool_decide (openai_api_key i = lit "") then
    emit (StError MsgNeedOpenAIKey)
  else if negb (all_truthy [x_consumer_key i; x_consumer_secret i; x_access_token i;
                            x_access_token_secret i; x_bearer_token i]) then
    emit (StError MsgNeedXCredentials)
  else if negb (truthy (strip (search_queries_text i))) then
    emit (StError MsgNeedQuery)
  else
    let search_queries := search_queries_of (search_queries_text i) in
    emit (StSpinner MsgSearchingSpinner);;
    '(leads, all_posts, stats) ←
       track_leads_on_x w search_queries (openai_api_key i)
         (x_consumer_key i) (x_consumer_secret i) (x_access_token i)
         (x_access_token_secret i) (x_bearer_token i)
         (max_posts_per_query i) (min_lead_score i);
    set_session {| leads := leads; all_posts := all_posts; search_stats := stats |};;
    match leads with
    | _ :: _ => emit (StSuccess (MsgFound (length leads)))
    | [] => emit (StInfo MsgNoLeads)
    end.

(** The state in which the script starts: the initial session (lines 78-88)
    and nothing observed yet. *)
Definition initial_session : session_state :=
  {| leads := []; all_posts := []; search_stats := cleared_stats |}.

Definition start (ss : session_state) : state :=
  {| session := ss; stats := ∅; trace := [] |}.

(** ** Presentation layer *)

(** [lead.get('score', 0)] and [lead.get('author', '')] *)
Definition get_score (l : lead) : Z := default 0 (score l).
Definition get_author (l : lead) : pystr := default [] (author l).

Definition High : string := "High (8-10)".
Definition Medium : string := "Medium (5-7)".
Definition Low : string := "Low (1-4)".

(** The dashboard's [score_counts] (lines 468-473). *)
Definition score_counts (leads : list lead) : gmap string nat :=
  let scores := List.map get_score leads in
  <[High := length (List.filter (fun s => 8 <=? s) scores)]>
    (<[Medium := length (List.filter (fun s => (5 <=? s) && (s <? 8)) scores)]>
       (<[Low := length (List.filter (fun s => s <? 5) scores)]> ∅)).

(** [x in xs] on a list of strings. *)
Definition py_in (x : string) (xs : list string) : bool := bool_decide (x ∈ xs).

(** The three filters of the leads tab (lines 505-512), each applied to the
    result of the one before. *)
Definition filtered_leads (filter_score : list string) (leads : list lead) : list lead :=
  let filtered_leads := leads in
  let filtered_leads :=
    if negb (py_in High filter_score)
    then List.filter (fun l => get_score l <? 8) filtered_leads
    else filtered_leads in
  let filtered_leads :=
    if negb (py_in Medium filter_score)
    then List.filter (fun l => negb ((5 <=? get_score l) && (get_score l <? 8))) filtered_leads
    else filtered_leads in
  let filtered_leads :=
    if negb (py_in Low filter_score)
    then List.filter (fun l => 5 <=? get_score l) filtered_leads
    else filtered_leads in
  filtered_leads.

(** [list.sort(key=..., reverse=...)]: Python guarantees a stable sort, also
    with [reverse=True]. It is modelled by the stable insertion sort on the
    keys, the comparison [le] being [<=] on the keys, or [>=] when
    [reverse=True]. *)
Section ListSort.
Context {A K : Type} (key : A -> K) (le : K -> K -> bool).

Fixpoint insert_by (x : A) (l : list A) : list A :=
  match l with
  | [] => [x]
  | y :: l' => if le (key x) (key y) then x :: l else y :: insert_by x l'
  end.

Definition list_sort (l : list A) : list A := foldr insert_by [] l.
End ListSort.

Definition Z_geb (a b : Z) : bool := b <=? a.

(** The sort of the leads tab (lines 515-520). *)
Definition sort_leads (sort_by : string) (filtered_leads : list lead) : list lead :=
  if bool_decide (sort_by = "Score (High to Low)"%string) then
    list_sort get_score Z_geb filtered_leads
  else if bool_decide (sort_by = "Score (Low to High)"%string) then
    list_sort get_score Z.leb filtered_leads
  else
    list_sort get_author PyStr.leb filtered_leads.

(** [score_class] of line 527. *)
Definition score_class (score : Z) : string :=
  if 8 <=? score then "high-score"
  else if 5 <=? score then "medium-score"
  else "low-score".

(** *** The leads tab on the store of lists

    [st.session_state.leads] is a list object shared with the session; the
    tab works on [filtered_leads], first bound to a copy. Lists live in a
    store addressed by position; a list comprehension allocates a new list
    and [.sort] updates the one it is called on. *)
Module Store.

Abbreviation store := (list (list lead)).
Abbreviation addr := nat.

Definition alloc (l : list lead) (h : store) : addr * store := (length h, h ++ [l]).

(** In-place update of the list at [a]. *)
Definition update (a : addr) (f : list lead -> list lead) (h : store) : option store :=
  l ← h !! a; Some (<[a := f l]> h).

(** [name = [l for l in name if p(l)]] *)
Definition comprehension (p : lead -> bool) (a : addr) (h : store) : option (addr * store) :=
  l ← h !! a; Some (alloc (List.filter p l) h).

Definition leads_tab (session_leads : addr) (sort_by : string) (filter_score : list string)
    (h : store) : option (addr * store) :=
  l ← h !! session_leads;
  let '(filtered_leads, h) := alloc l h in           (* .copy() *)
  '(filtered_leads, h) ←
    (if negb (py_in High filter_score)
     then comprehension (fun l => get_score l <? 8) filtered_leads h
     else Some (filtered_leads, h));
  '(filtered_leads, h) ←
    (if negb (py_in Medium filter_score)
     then comprehension (fun l => negb ((5 <=? get_score l) && (get_score l <? 8)))
            filtered_leads h
     else Some (filtered_leads, h));
  '(filtered_leads, h) ←
    (if negb (py_in Low filter_score)
     then comprehension (fun l => 5 <=? get_score l) filtered_leads h
     else Some (filtered_leads, h));
  h ← (if bool_decide (sort_by = "Score (High to Low)"%string) then
         update filtered_leads (list_sort get_score Z_geb) h
       else if bool_decide (sort_by = "Score (Low to High)"%string) then
         update filtered_leads (list_sort get_score Z.leb) h
       else
         update filtered_leads (list_sort get_author PyStr.leb) h);
  Some (filtered_leads, h).

End Store.

(** ** The operations as the specification words them *)

Inductive bucket_name := BHigh | BMedium | BLow.

Global Instance bucket_name_eq_dec : EqDecision bucket_name.
Proof. solve_decision. Defined.

(** [bucket(score) -> {High: score >= 8, Medium: 5 <= score < 8, Low: score < 5}] *)
Definition bucket (score : Z) : bucket_name :=
  if bool_decide (8 <= score) then BHigh
  else if bool_decide (5 <= score < 8) then BMedium
  else BLow.

(** The label under which the multiselect offers a bucket. *)
Definition bucket_label (b : bucket_name) : string :=
  match b with BHigh => High | BMedium => Medium | BLow => Low end.

(** [filter(leads, selected_buckets) -> leads where bucket(lead.score) ∈ selected_buckets] *)
Definition filter_spec (selected_buckets : list string) (leads : list lead) : list lead :=
  List.filter (fun l => bool_decide (bucket_label (bucket (get_score l)) ∈ selected_buckets)) leads.

(** The names [MissingCredential] and [EmptyQuerySet] for the messages of the
    validation block. *)
Inductive validation_error := MissingCredential | EmptyQuerySet.

Definition validation_error_of (m : message) : option validation_error :=
  match m with
  | MsgNeedOpenAIKey | MsgNeedXCredentials => Some MissingCredential
  | MsgNeedQuery => Some EmptyQuerySet
  | _ => None
  end.

(** ** Reading a trace *)

(** The calls of [agent.run], in order: index of the query, prompt, answer. *)
Definition agent_calls (tr : list event) : list (nat * pystr * (exn + pystr)) :=
  omap (fun ev => match ev with AgentRun i p r => Some (i, p, r) | _ => None end) tr.

Definition returned (c : nat * pystr * (exn + pystr)) : bool :=
  match c.2 with inr _ => true | inl _ => false end.

(** The number of calls of [agent.run] that returned. *)
Definition successful_queries (tr : list event) : nat :=
  length (List.filter returned (agent_calls tr)).

(** Constructions of the client or of the agent that raised. *)
Definition construction_failures (tr : list event) : list exn :=
  omap (fun ev => match ev with
                  | NewXTools _ (Some e) | NewAgent _ (Some e) => Some e
                  | _ => None
                  end) tr.

(** The calls that reach an external service. *)
Definition external_calls (tr : list event) : list event :=
  List.filter (fun ev => match ev with
                         | NewXTools _ _ | NewAgent _ _ | AgentRun _ _ _ => true
                         | _ => false
                         end) tr.

Definition warnings (tr : list event) : list message :=
  omap (fun ev => match ev with StWarning m => Some m | _ => None end) tr.

Definition errors (tr : list event) : list message :=
  omap (fun ev => match ev with StError m => Some m | _ => None end) tr.

(** The counter [stats[key]], when it is an integer. *)
Definition counter (stats : gmap string pyval) (key : string) : option Z :=
  match stats !! key with
  | Some (VInt z) => Some z
  | _ => None
  end.

(** One run of the pipeline with the parameters of [i], from a fresh script
    run over the session [ss]. *)
Definition run_pipeline (w : world) (search_queries : list pystr) (i : inputs)
    (ss : session_state) : outcome (list lead * list post * gmap string pyval) * state :=
  track_leads_on_x w search_queries (openai_api_key i)
    (x_consumer_key i) (x_consumer_secret i) (x_access_token i)
    (x_access_token_secret i) (x_bearer_token i)
    (max_posts_per_query i) (min_lead_score i) (start ss).

(** What a run gave back: the three components of the returned tuple (none
    if the call raised) and the calls it made. *)
Definition run_result := (outcome (list lead * list post * gmap string pyval) * state)%type.

Definition run_leads (r : run_result) : option (list lead) :=
  match r.1 with Returns (l, _, _) => Some l | Raises _ => None end.

Definition run_posts (r : run_result) : option (list post) :=
  match r.1 with Returns (_, p, _) => Some p | Raises _ => None end.

Definition run_stats (r : run_result) : gmap string pyval :=
  match r.1 with Returns (_, _, st) => st | Raises _ => ∅ end.

Definition run_trace (r : run_result) : list event := trace r.2.

(** What the world answers to the calls of the loop, query by query. *)
Fixpoint answers (w : world) (a : agent) (max_posts_per_query : Z) (idx : nat)
    (qs : list pystr) : list (exn + pystr) :=
  match qs with
  | [] => []
  | q :: qs' =>
      agent_run w a idx (search_prompt q max_posts_per_query)
        :: answers w a max_posts_per_query (S idx) qs'
  end.

(** The warning due to a query and its answer. *)
Definition warning_of (qr : pystr * (exn + pystr)) : option message :=
  match qr.2 with
  | inl e => Some (MsgQueryError qr.1 e)
  | inr _ => None
  end.

(** The call of [agent.run] for the query of index [k]. *)
Definition call_of (max_posts : Z) (k : nat) (qr : pystr * (exn + pystr))
    : nat * pystr * (exn + pystr) :=
  (k, search_prompt qr.1 max_posts, qr.2).

(** A run either stops at a construction that raised, or goes through all
    the queries: what it shows and returns in each case. *)
Definition aborted (evs : list event) (stats : gmap string pyval) : Prop :=
  exists e,
    construction_failures evs = [e] /\
    errors evs = [MsgTrackingError e] /\
    warnings evs = [] /\
    agent_calls evs = [] /\
    stats = initial_stats.

Definition completed (w : world) (qs : list pystr) (max_posts : Z)
    (evs : list event) (stats : gmap string pyval) : Prop :=
  exists a,
    construction_failures evs = [] /\
    errors evs = [] /\
    agent_calls evs = imap (call_of max_posts) (zip qs (answers w a max_posts 0 qs)) /\
    warnings evs = omap warning_of (zip qs (answers w a max_posts 0 qs)) /\
    stats = <["last_search" := VStr (now w)]>
              (<["total_posts" := VInt (max_posts * Z.of_nat (successful_queries evs))]>
                 initial_stats).

(** ** Reading the leads tab and the search button *)

(** The key by which [sort_by] orders the leads. *)
Definition sort_key (sort_by : string) (l : lead) : Z + pystr :=
  if bool_decide (sort_by = "Score (High to Low)"%string) then inl (get_score l)
  else if bool_decide (sort_by = "Score (Low to High)"%string) then inl (get_score l)
  else inr (get_author l).

(** The order in which [sort_by] puts two keys. *)
Definition sort_le (sort_by : string) (l1 l2 : lead) : Prop :=
  if bool_decide (sort_by = "Score (High to Low)"%string) then get_score l2 <= get_score l1
  else if bool_decide (sort_by = "Score (Low to High)"%string) then get_score l1 <= get_score l2
  else PyStr.leb (get_author l1) (get_author l2) = true.

(** A string made of whitespace only. *)
Definition blank (s : pystr) : bool := forallb isspace s.

(** Some required credential is the empty string. *)
Definition missing_credential (i : inputs) : Prop :=
  openai_api_key i = [] \/ x_consumer_key i = [] \/ x_consumer_secret i = []
  \/ x_access_token i = [] \/ x_access_token_secret i = [] \/ x_bearer_token i = [].

(** The validation error shown first in a trace, if any. *)
Definition rejection (tr : list event) : option validation_error :=
  match errors tr with
  | m :: _ => validation_error_of m
  | [] => None
  end.

(** One click on the search button, from a fresh script run over [ss]. *)
Definition click_search (w : world) (i : inputs) (ss : session_state)
    : outcome unit * state :=
  search_button_handler w i (start ss).

(** ** Sample worlds and inputs *)

Definition sample_inputs : inputs :=
  {| openai_api_key := lit "sk-test";
     x_consumer_key := lit "ck";
     x_consumer_secret := lit "cs";
     x_access_token := lit "at";
     x_access_token_secret := lit "ats";
     x_bearer_token := lit "bt";
     search_queries_text := lit "looking for BI dashboard tool";
     max_posts_per_query := 50;
     min_lead_score := 6 |}.

Definition empty_inputs : inputs :=
  {| openai_api_key := [];
     x_consumer_key := [];
     x_consumer_secret := [];
     x_access_token := [];
     x_access_token_secret := [];
     x_bearer_token := [];
     search_queries_text := [];
     max_posts_per_query := 50;
     min_lead_score := 6 |}.

(** Every call succeeds. *)
Definition world_ok : world :=
  {| XTools_raises := fun _ => None;
     Agent_raises := fun _ => None;
     agent_run := fun _ _ _ => inr (lit "no posts");
     now := lit "2024-01-01 00:00:00" |}.

(** The client cannot be constructed. *)
Definition world_no_client : world :=
  {| XTools_raises := fun _ => Some (Exception (lit "401 Unauthorized"));
     Agent_raises := fun _ => None;
     agent_run := fun _ _ _ => inr (lit "no posts");
     now := lit "2024-01-01 00:00:00" |}.

(** The call for the query of index 1 raises; the others succeed. *)
Definition world_second_fails : world :=
  {| XTools_raises := fun _ => None;
     Agent_raises := fun _ => None;
     agent_run := fun _ idx _ =>
       if Nat.eqb idx 1 then inl (Exception (lit "429 Too Many Requests"))
       else inr (lit "no posts");
     now := lit "2024-01-01 00:00:00" |}.

Definition three_queries : list pystr :=
  [lit "looking for BI dashboard tool"; lit "need data visualization software";
   lit "business intelligence recommendations"].

(** Credentials all present, and a text of queries that holds blanks only. *)
Definition blank_query_inputs : inputs :=
  {| openai_api_key := lit "sk-test";
     x_consumer_key := lit "ck";
     x_consumer_secret := lit "cs";
     x_access_token := lit "at";
     x_access_token_secret := lit "ats";
     x_bearer_token := lit "bt";
     search_queries_text := [32; 10; 9; 10; 160]%N;
     max_posts_per_query := 50;
     min_lead_score := 6 |}.

(** Sample leads. *)
Definition lead_of (author : option pystr) (score : option Z) : lead :=
  {| id := None; author := author; content := None; url := None;
     engagement_metrics := None; score := score; business_context := None;
     decision_authority := None; pain_points := None; budget_indicators := None;
     red_flags := None; recommendation := None |}.

Definition lead_without_score : lead := lead_of (Some (lit "carol")) None.

Definition sample_leads : list lead :=
  [lead_of (Some (lit "bob")) (Some 9); lead_without_score;
   lead_of (Some (lit "alice")) (Some 6); lead_of (Some (lit "dave")) (Some 9);
   lead_of None (Some 3)].

(** ** The sidebar's default queries *)

(** [sep.join(xs)] *)
Fixpoint str_join (sep : pystr) (xs : list pystr) : pystr :=
  match xs with
  | [] => []
  | x :: xs' =>
      match xs' with
      | [] => x
      | _ :: _ => x ++ sep ++ str_join sep xs'
      end
  end.

(** [default_queries] (lines 178-184) and the initial value of the text area. *)
Definition default_queries : list pystr :=
  [lit "looking for BI dashboard tool";
   lit "need data visualization software";
   lit "business intelligence recommendations";
   lit "analytics dashboard for company";
   lit "reporting tool suggestions"].

Definition default_search_queries_text : pystr := str_join [newline] default_queries.

(** ** The trace of a run in closed form *)

(** The client and the agent that [track_leads_on_x] asks for. *)
Definition client_of (consumer_key consumer_secret access_token access_token_secret
    bearer_token : pystr) : x_tools :=
  {| xt_consumer_key := consumer_key;
     xt_consumer_secret := consumer_secret;
     xt_access_token := access_token;
     xt_access_token_secret := access_token_secret;
     xt_bearer_token := bearer_token;
     include_post_metrics := true;
     wait_on_rate_limit := true |}.

Definition agent_of (openai_api_key : pystr) (x : x_tools) : agent :=
  {| model_id := lit "gpt-4o";
     api_key := openai_api_key;
     tools := [x];
     instructions := lead_tracker_instructions;
     markdown := true |}.

(** What one turn of the loop shows and calls. *)
Definition query_events (w : world) (a : agent) (max_posts : Z) (total idx : nat)
    (q : pystr) : list event :=
  [StatusText (MsgSearching q (idx + 1) total);
   StatusText (MsgAnalyzing q);
   AgentRun idx (search_prompt q max_posts) (agent_run w a idx (search_prompt q max_posts))]
  ++ match agent_run w a idx (search_prompt q max_posts) with
     | inr _ => [StatusText (MsgCompleted q)]
     | inl e => [StWarning (MsgQueryError q e); LoggerError (MsgQueryError q e)]
     end
  ++ [StProgress (idx + 1) total].

Fixpoint loop_events (w : world) (a : agent) (max_posts : Z) (total idx : nat)
    (qs : list pystr) : list event :=
  match qs with
  | [] => []
  | q :: qs' =>
      query_events w a max_posts total idx q ++ loop_events w a max_posts total (S idx) qs'
  end.

Definition track_events (w : world) (qs : list pystr)
    (key ck cs tok toks bt : pystr) (max_posts : Z) : list event :=
  let x := client_of ck cs tok toks bt in
  let a := agent_of key x in
  [StProgress 0 1; StEmpty; StatusText MsgInitializingClient; NewXTools x (XTools_raises w x)]
  ++ match XTools_raises w x with
     | Some e =>
         [LoggerError (MsgClientInitError e);
          StError (MsgTrackingError e); LoggerError (MsgTrackingError e)]
     | None =>
         [LoggerInfo MsgClientInitialized; StatusText MsgCreatingAgent;
          NewAgent a (Agent_raises w a)]
         ++ match Agent_raises w a with
            | Some e => [StError (MsgTrackingError e); LoggerError (MsgTrackingError e)]
            | None =>
                loop_events w a max_posts (length qs) 0 qs
                ++ [StProgress 1 1; StatusText MsgSearchCompleted]
            end
     end.

(** More readings of a trace. *)
Definition progress_updates (tr : list event) : list (nat * nat) :=
  omap (fun ev => match ev with StProgress n d => Some (n, d) | _ => None end) tr.

Definition logged_errors (tr : list event) : list message :=
  omap (fun ev => match ev with LoggerError m => Some m | _ => None end) tr.

Definition is_query_error (m : message) : bool :=
  match m with MsgQueryError _ _ => true | _ => false end.

Definition searching_statuses (tr : list event) : list (pystr * nat * nat) :=
  omap (fun ev => match ev with
                  | StatusText (MsgSearching q k n) => Some (q, k, n)
                  | _ => None
                  end) tr.

Definition client_constructions (tr : list event) : list x_tools :=
  omap (fun ev => match ev with NewXTools x _ => Some x | _ => None end) tr.

Definition agent_constructions (tr : list event) : list agent :=
  omap (fun ev => match ev with NewAgent a _ => Some a | _ => None end) tr.

Definition successes (tr : list event) : list message :=
  omap (fun ev => match ev with StSuccess m => Some m | _ => None end) tr.

Definition infos (tr : list event) : list message :=
  omap (fun ev => match ev with StInfo m => Some m | _ => None end) tr.

(** ** The four tabs

    Each tab is the list of the widgets it shows that carry a value of the
    session, in order; headers, separators and fixed captions are left
    out. *)

(** Truth value of a value of [stats]. *)
Definition pyval_truthy (v : pyval) : bool :=
  match v with
  | VInt z => negb (z =? 0)
  | VStr s => truthy s
  | VNone => false
  end.

(** Tab 1 (lines 430-481). *)
Inductive dashboard_item :=
| StatBox (label : string) (value : pyval)
| LastSearchInfo (value : pyval)
| ScoreMetric (label : string) (value : nat) (delta : string).

Definition dashboard_tab (ss : session_state) : list dashboard_item :=
  let stats := search_stats ss in
  [StatBox "Total Posts Searched" (default (VInt 0) (stats !! "total_posts"));
   StatBox "Posts Analyzed by AI" (default (VInt 0) (stats !! "analyzed_posts"));
   StatBox "Qualified Leads Found" (VInt (Z.of_nat (length (leads ss))))]
  ++ (if pyval_truthy (default VNone (stats !! "last_search"))
      then [LastSearchInfo (default VNone (stats !! "last_search"))]
      else [])
  ++ match leads ss with
     | [] => []
     | _ :: _ =>
         let score_counts := score_counts (leads ss) in
         [ScoreMetric "High Priority" (score_counts !!! High) "Hot Leads";
          ScoreMetric "Medium Priority" (score_counts !!! Medium) "Warm Leads";
          ScoreMetric "Low Priority" (score_counts !!! Low) "Cold Leads"]
     end.

(** Tab 2 (lines 484-572): one expander per lead shown. *)
Definition engagement_truthy (e : engagement) : bool :=
  match likes e, retweets e, replies e with
  | None, None, None => false
  | _, _, _ => true
  end.

Record lead_card := {
  card_number : nat;
  card_author : pystr;
  card_score : Z;
  card_expanded : bool;
  card_content : pystr;
  card_url_text : pystr;
  card_url_link : pystr;
  card_engagement : option (Z * Z * Z);
  card_score_class : string;
  card_business_context : pystr;
  card_budget_indicators : pystr;
  card_decision_authority : pystr;
  card_red_flags : pystr;
  card_pain_points : list pystr + pystr;
  card_recommendation : pystr
}.

Definition card_of (idx : nat) (l : lead) : lead_card :=
  let score := get_score l in
  {| card_number := idx;
     card_author := default (lit "Unknown") (author l);
     card_score := score;
     card_expanded := Nat.eqb idx 1;
     card_content := default (lit "No content available") (content l);
     card_url_text := default (lit "N/A") (url l);
     card_url_link := default (lit "#") (url l);
     card_engagement :=
       match engagement_metrics l with
       | Some metrics =>
           if engagement_truthy metrics
           then Some (default 0 (likes metrics), default 0 (retweets metrics),
                      default 0 (replies metrics))
           else None
       | None => None
       end;
     card_score_class := score_class score;
     card_business_context := default (lit "Not available") (business_context l);
     card_budget_indicators := default (lit "Not available") (budget_indicators l);
     card_decision_authority := default (lit "Not available") (decision_authority l);
     card_red_flags := default (lit "None identified") (red_flags l);
     card_pain_points :=
       match default [] (pain_points l) with
       | [] => inr (lit "No specific pain points identified")
       | (_ :: _) as points => inl points
       end;
     card_recommendation := default (lit "No recommendation available") (recommendation l) |}.

Inductive leads_tab_item :=
| NoLeadsYet
| Showing (n : nat)
| Expander (card : lead_card).

(** [for idx, lead in enumerate(filtered_leads, 1)] *)
Definition leads_tab_view (ss : session_state) (sort_by : string)
    (filter_score : list string) : list leads_tab_item :=
  match leads ss with
  | [] => [NoLeadsYet]
  | _ :: _ =>
      let filtered_leads := sort_leads sort_by (filtered_leads filter_score (leads ss)) in
      Showing (length filtered_leads)
        :: imap (fun i lead => Expander (card_of (i + 1) lead)) filtered_leads
  end.

(** Tab 3 (lines 575-587). *)
Inductive posts_tab_item :=
| NoPostsYet
| TotalExplored (n : nat)
| PostExpander (number : nat) (author content url_text url_link status : pystr).

Definition posts_tab_view (ss : session_state) : list posts_tab_item :=
  match all_posts ss with
  | [] => [NoPostsYet]
  | _ :: _ =>
      TotalExplored (length (all_posts ss))
        :: imap (fun i post =>
                   PostExpander (i + 1)
                     (default (lit "Unknown") (post_author post))
                     (default (lit "No content") (post_content post))
                     (default (lit "N/A") (post_url post))
                     (default (lit "#") (post_url post))
                     (default (lit "Explored") (post_status post)))
             (all_posts ss)
  end.

(** Tab 4 (lines 590-644). [json.dumps] and pandas' [to_csv] belong to
    libraries: a download is recorded with the value handed to them. *)
Record csv_row := {
  Author : pystr;
  Score : Z;
  Post_URL : pystr;
  Content : pystr;
  Business_Context : pystr;
  Decision_Authority : pystr;
  Pain_Points : pystr;
  Budget_Indicators : pystr;
  Red_Flags : pystr;
  Recommendation : pystr
}.

Definition csv_row_of (l : lead) : csv_row :=
  {| Author := default [] (author l);
     Score := get_score l;
     Post_URL := default [] (url l);
     Content := default [] (content l);
     Business_Context := default [] (business_context l);
     Decision_Authority := default [] (decision_authority l);
     Pain_Points := str_join (lit ", ") (default [] (pain_points l));
     Budget_Indicators := default [] (budget_indicators l);
     Red_Flags := default [] (red_flags l);
     Recommendation := default [] (recommendation l) |}.

(** The loop of lines 617-630. *)
Definition csv_data (leads : list lead) : list csv_row := List.map csv_row_of leads.

Inductive export_item :=
| NoLeadsToExport
| ReadyToExport (n : nat)
| DownloadJSON (leads : list lead) (file_name : pystr)
| PreviewJSON (leads : list lead)
| DownloadCSV (rows : list csv_row) (file_name : pystr)
| PreviewCSV (rows : list csv_row).

(** [timestamp] is [datetime.now().strftime('%Y%m%d_%H%M%S')]. *)
Definition export_tab (ss : session_state) (export_format : string) (timestamp : pystr)
    : list export_item :=
  match leads ss with
  | [] => [NoLeadsToExport]
  | _ :: _ =>
      ReadyToExport (length (leads ss))
        :: (if bool_decide (export_format = "JSON"%string) then
              [DownloadJSON (leads ss) (lit "x_leads_" ++ timestamp ++ lit ".json");
               PreviewJSON (leads ss)]
            else
              let csv_data := csv_data (leads ss) in
              [DownloadCSV csv_data (lit "x_leads_" ++ timestamp ++ lit ".csv");
               PreviewCSV csv_data])
  end.

(** The session after one click on the search button. *)
Definition session_after_search (w : world) (i : inputs) (ss : session_state)
    : session_state :=
  session (click_search w i ss).2.

(** * Properties *)

(** ** The statements monad *)

Arguments search_prompt : simpl never.

Ltac unfold_monad :=
  unfold mbind, M_bind, mret, M_ret, bind, ret, raise, try_except, emit,
    get_stats, set_stats, set_session, stats_setitem, stats_iadd in *.

Lemma successful_queries_app (tr1 tr2 : list event) :
  successful_queries (tr1 ++ tr2) = (successful_queries tr1 + successful_queries tr2)%nat.
Proof.
  unfold successful_queries, agent_calls.
  by rewrite omap_app, List.filter_app, length_app.
Qed.

Lemma state_eta (s : state) :
  {| session := session s; stats := stats s; trace := trace s |} = s.
Proof. by destruct s. Qed.

(** ** The loop over the queries *)

Section Loop.
Variables (w : world) (a : agent) (max_posts : Z) (total : nat).

Lemma process_query_returned idx q s z response :
  total <> 0%nat ->
  agent_run w a idx (search_prompt q max_posts) = inr response ->
  stats s !! "total_posts" = Some (VInt z) ->
  process_query w a max_posts total idx q s =
    (Returns tt,
     {| session := session s;
        stats := <["total_posts" := VInt (z + max_posts)]> (stats s);
        trace := trace s ++
          [StatusText (MsgSearching q (idx + 1) total);
           StatusText (MsgAnalyzing q);
           AgentRun idx (search_prompt q max_posts) (inr response);
           StatusText (MsgCompleted q);
           StProgress (idx + 1) total] |}).
Proof.
  intros Htotal Hrun Hz. unfold process_query, run_agent, true_div.
  destruct total as [|n]; [done|]. unfold_monad. cbn.
  rewrite Hrun. cbn. rewrite Hz. cbn. by rewrite <- !app_assoc.
Qed.

Lemma process_query_raised idx q s e :
  total <> 0%nat ->
  agent_run w a idx (search_prompt q max_posts) = inl e ->
  process_query w a max_posts total idx q s =
    (Returns tt,
     {| session := session s;
        stats := stats s;
        trace := trace s ++
          [StatusText (MsgSearching q (idx + 1) total);
           StatusText (MsgAnalyzing q);
           AgentRun idx (search_prompt q max_posts) (inl e);
           StWarning (MsgQueryError q e);
           LoggerError (MsgQueryError q e);
           StProgress (idx + 1) total] |}).
Proof.
  intros Htotal Hrun. unfold process_query, run_agent, true_div.
  destruct total as [|n]; [done|]. unfold_monad. cbn.
  rewrite Hrun. cbn. by rewrite <- !app_assoc.
Qed.

Lemma loop_run qs : forall idx s z,
  (length qs <= total)%nat ->
  stats s !! "total_posts" = Some (VInt z) ->
  exists evs,
    for_enumerate idx qs (process_query w a max_posts total) s =
      (Returns tt,
       {| session := session s;
          stats := <["total_posts" :=
                       VInt (z + max_posts * Z.of_nat (successful_queries evs))]>
                     (stats s);
          trace := trace s ++ evs |})
    /\ agent_calls evs
       = imap (fun k => call_of max_posts (idx + k)) (zip qs (answers w a max_posts idx qs))
    /\ warnings evs = omap warning_of (zip qs (answers w a max_posts idx qs))
    /\ errors evs = []
    /\ construction_failures evs = [].
Proof.
  induction qs as [|q qs IH]; intros idx s z Hlen Hz.
  - exists []. cbn. split_and!; try done.
    rewrite Z.mul_0_r, Z.add_0_r, app_nil_r, insert_id by done.
    by rewrite state_eta.
  - cbn [for_enumerate answers].
    assert (Htotal : total <> 0%nat) by (cbn in Hlen; lia).
    assert (Hlen' : (length qs <= total)%nat) by (cbn in Hlen; lia).
    destruct (agent_run w a idx (search_prompt q max_posts)) as [e|response] eqn:Hrun.
    + pose proof (process_query_raised idx q s e Htotal Hrun) as Hq.
      set (s1 := {| session := session s; stats := stats s; trace := _ |}) in Hq.
      destruct (IH (S idx) s1 z Hlen' Hz)
        as (evs & Hloop & Hcalls & Hwarn & Herr & Hfail).
      exists ([StatusText (MsgSearching q (idx + 1) total);
               StatusText (MsgAnalyzing q);
               AgentRun idx (search_prompt q max_posts) (inl e);
               StWarning (MsgQueryError q e);
               LoggerError (MsgQueryError q e);
               StProgress (idx + 1) total] ++ evs). split_and!.
      * unfold bind. rewrite Hq, Hloop. subst s1. cbn [session stats trace].
        by rewrite <- app_assoc, successful_queries_app.
      * unfold agent_calls in *. rewrite omap_app, Hcalls. cbn.
        rewrite Nat.add_0_r. f_equal. apply imap_ext. intros k x _. cbn.
        unfold call_of. by rewrite Nat.add_succ_r.
      * unfold warnings in *. rewrite omap_app, Hwarn. done.
      * unfold errors in *. rewrite omap_app, Herr. done.
      * unfold construction_failures in *. rewrite omap_app, Hfail. done.
    + pose proof (process_query_returned idx q s z response Htotal Hrun Hz) as Hq.
      set (s1 := {| session := session s; stats := _; trace := _ |}) in Hq.
      assert (Hz1 : stats s1 !! "total_posts" = Some (VInt (z + max_posts)))
        by (subst s1; cbn; apply lookup_insert_eq).
      destruct (IH (S idx) s1 _ Hlen' Hz1)
        as (evs & Hloop & Hcalls & Hwarn & Herr & Hfail).
      exists ([StatusText (MsgSearching q (idx + 1) total);
               StatusText (MsgAnalyzing q);
               AgentRun idx (search_prompt q max_posts) (inr response);
               StatusText (MsgCompleted q);
               StProgress (idx + 1) total] ++ evs). split_and!.
      * unfold bind. rewrite Hq, Hloop. subst s1. cbn [session stats trace].
        rewrite <- app_assoc, insert_insert_eq, successful_queries_app.
        do 4 f_equal. cbn. lia.
      * unfold agent_calls in *. rewrite omap_app, Hcalls. cbn.
        rewrite Nat.add_0_r. f_equal. apply imap_ext. intros k x _. cbn.
        unfold call_of. by rewrite Nat.add_succ_r.
      * unfold warnings in *. rewrite omap_app, Hwarn. done.
      * unfold errors in *. rewrite omap_app, Herr. done.
      * unfold construction_failures in *. rewrite omap_app, Hfail. done.
Qed.

End Loop.

(** ** One run of [track_leads_on_x] *)

Lemma track_leads_on_x_run w qs key ck cs tok toks bt max_posts min_score s0 :
  exists stats evs,
    track_leads_on_x w qs key ck cs tok toks bt max_posts min_score s0 =
      (Returns ([], [], stats),
       {| session := session s0; stats := stats; trace := trace s0 ++ evs |})
    /\ (aborted evs stats \/ completed w qs max_posts evs stats)
    /\ external_calls evs <> [].
Proof.
  unfold track_leads_on_x, initialize_x_client, create_lead_tracker_agent,
    new_XTools, new_Agent.
  unfold_monad. cbn [session stats trace].
  destruct (XTools_raises w _) as [e|] eqn:HX.
  { cbn [session stats trace]. rewrite <- !app_assoc. cbn [app].
    eexists _, _. split; [reflexivity|]. split; [|done].
    left. by exists e. }
  destruct (Agent_raises w _) as [e|] eqn:HA.
  { cbn [session stats trace]. rewrite <- !app_assoc. cbn [app].
    eexists _, _. split; [reflexivity|]. split; [|done].
    left. by exists e. }
  cbn [session stats trace]. rewrite <- !app_assoc. cbn [app].
  match goal with
  | |- context [for_enumerate 0 qs (process_query w ?a max_posts ?t) ?s] =>
      destruct (loop_run w a max_posts t qs 0 s 0 (Nat.le_refl _) eq_refl)
        as (evs & Hloop & Hcalls & Hwarn & Herr & Hfail);
      rewrite Hloop; clear Hloop;
      cbn [session stats trace]; rewrite <- !app_assoc; cbn [app];
      eexists _, (_ :: _ :: _ :: _ :: _ :: _ :: _ :: evs ++ [_; _]);
      split; [reflexivity|]; split; [|done]; right; exists a
  end.
  unfold construction_failures, errors, warnings, agent_calls in *.
  cbn [omap list_omap]. rewrite !omap_app, Hcalls, Hwarn, Herr, Hfail.
  cbn [omap list_omap]. rewrite !app_nil_r. split_and!; try done.
  rewrite Z.add_0_l. do 4 f_equal.
  unfold successful_queries, agent_calls. cbn [omap list_omap].
  rewrite omap_app. cbn [omap list_omap]. by rewrite app_nil_r.
Qed.

Lemma run_pipeline_cases w qs i ss :
  exists stats evs,
    run_pipeline w qs i ss =
      (Returns ([], [], stats), {| session := ss; stats := stats; trace := evs |})
    /\ (aborted evs stats \/ completed w qs (max_posts_per_query i) evs stats).
Proof.
  unfold run_pipeline.
  destruct (track_leads_on_x_run w qs (openai_api_key i) (x_consumer_key i)
              (x_consumer_secret i) (x_access_token i) (x_access_token_secret i)
              (x_bearer_token i) (max_posts_per_query i) (min_lead_score i) (start ss))
    as (stats & evs & Hrun & Hcases & _).
  exists stats, evs. by rewrite Hrun.
Qed.

Lemma counter_initial_stats :
  counter initial_stats "total_posts" = Some 0
  /\ counter initial_stats "analyzed_posts" = Some 0
  /\ counter initial_stats "leads_found" = Some 0
  /\ initial_stats !! "last_search" = None.
Proof. done. Qed.

Lemma counter_final_stats (last : pyval) (n : Z) :
  counter (<["last_search" := last]> (<["total_posts" := VInt n]> initial_stats))
    "total_posts" = Some n.
Proof.
  unfold counter. rewrite lookup_insert_ne by done. by rewrite lookup_insert_eq.
Qed.

Lemma agent_calls_length w a max_posts qs idx :
  length (imap (fun k => call_of max_posts (idx + k)) (zip qs (answers w a max_posts idx qs)))
  = length qs.
Proof.
  rewrite length_imap, length_zip.
  assert (H : forall idx, length (answers w a max_posts idx qs) = length qs)
    by (induction qs; intros; cbn; auto).
  rewrite H. lia.
Qed.

(** ** Claims about the pipeline *)

(** C1. Whatever the queries, the parameters and the answers of the outside
    world, [track_leads_on_x] returns, and the leads and the posts it
    returns are both the empty list. *)
Theorem C1_leads_and_posts_always_empty
    w qs key ck cs tok toks bt max_posts min_score (s0 : state) :
  exists stats s',
    track_leads_on_x w qs key ck cs tok toks bt max_posts min_score s0
    = (Returns ([], [], stats), s').
Proof.
  destruct (track_leads_on_x_run w qs key ck cs tok toks bt max_posts min_score s0)
    as (stats & evs & Hrun & _ & _).
  eauto.
Qed.

(** C2. In every run in which every per-query external call succeeds, that
    is, in which for each query of the list the call of [agent.run] was made
    and returned, the returned [total_posts] is [max_posts_per_query] times
    the number of queries. *)
Theorem C2_total_posts_when_every_call_succeeds w qs i ss :
  (forall idx q,
      qs !! idx = Some q ->
      exists response,
        (idx, search_prompt q (max_posts_per_query i), inr response)
        ∈ agent_calls (run_trace (run_pipeline w qs i ss))) ->
  counter (run_stats (run_pipeline w qs i ss)) "total_posts"
  = Some (max_posts_per_query i * Z.of_nat (length qs)).
Proof.
  destruct (run_pipeline_cases w qs i ss) as (stats & evs & -> & Hcases).
  unfold run_trace, run_stats. cbn [fst snd trace].
  intros Hall.
  destruct Hcases as [(e & _ & _ & _ & Hcalls & ->)|(a & _ & _ & Hcalls & _ & ->)].
  - destruct qs as [|q qs]; [by rewrite Z.mul_0_r|].
    destruct (Hall 0%nat q eq_refl) as [response Hin].
    rewrite Hcalls in Hin. by apply elem_of_nil in Hin.
  - rewrite counter_final_stats. do 2 f_equal.
    unfold successful_queries.
    rewrite (forallb_filter_id returned (agent_calls evs)).
    { rewrite Hcalls. f_equal.
      apply (agent_calls_length w a (max_posts_per_query i) qs 0). }
    apply forallb_forall. intros c Hc.
    apply list_elem_of_In, list_elem_of_lookup in Hc as [k Hk].
    rewrite Hcalls in Hk. apply list_lookup_imap_Some in Hk as ([q r] & Hqr & ->).
    pose proof Hqr as Hq.
    apply lookup_zip_with_Some in Hq as (q' & r' & [= <- <-] & Hq & _).
    destruct (Hall k q Hq) as [response Hin].
    rewrite Hcalls in Hin.
    apply elem_of_lookup_imap in Hin as (k' & [q' r'] & Heq & Hk').
    unfold call_of in Heq. cbn in Heq. injection Heq as <- _ <-.
    rewrite Hqr in Hk'. by injection Hk' as _ ->.
Qed.

Lemma C2_total_posts_witness :
  counter (run_stats (run_pipeline world_ok three_queries sample_inputs initial_session))
    "total_posts" = Some (50 * 3).
Proof.
  apply (C2_total_posts_when_every_call_succeeds
           world_ok three_queries sample_inputs initial_session).
  intros idx q Hq. exists (lit "no posts").
  destruct idx as [|[|[|idx]]]; cbn in Hq; [| | |discriminate Hq];
    injection Hq as <-.
  - apply list_elem_of_lookup_2 with 0%nat. vm_compute. reflexivity.
  - apply list_elem_of_lookup_2 with 1%nat. vm_compute. reflexivity.
  - apply list_elem_of_lookup_2 with 2%nat. vm_compute. reflexivity.
Defined.

(** C3, as amended. In every run, [total_posts] is [max_posts_per_query]
    times the number of queries whose call of [agent.run] returned. *)
Theorem C3_total_posts_counts_returned_calls w qs i ss :
  counter (run_stats (run_pipeline w qs i ss)) "total_posts"
  = Some (max_posts_per_query i
          * Z.of_nat (successful_queries (run_trace (run_pipeline w qs i ss)))).
Proof.
  destruct (run_pipeline_cases w qs i ss) as (stats & evs & -> & Hcases).
  unfold run_trace, run_stats. cbn [fst snd trace].
  destruct Hcases as [(e & _ & _ & _ & Hcalls & ->)|(a & _ & _ & _ & _ & ->)].
  - unfold successful_queries. rewrite Hcalls. cbn. by rewrite Z.mul_0_r.
  - apply counter_final_stats.
Qed.

(** C3, as stated, fails: of three queries attempted, the second one raises,
    and [total_posts] is 100, not 50 for each of the three. *)
Lemma C3_counterexample :
  let r := run_pipeline world_second_fails three_queries sample_inputs initial_session in
  length (agent_calls (run_trace r)) = 3%nat
  /\ counter (run_stats r) "total_posts" = Some 100
  /\ counter (run_stats r) "total_posts"
     <> Some (max_posts_per_query sample_inputs
              * Z.of_nat (length (agent_calls (run_trace r)))).
Proof. vm_compute. split_and!; try done. Qed.

Lemma filter_length_lt_of_rejected {A} (f : A -> bool) (l : list A) (x : A) :
  x ∈ l -> f x = false -> (length (List.filter f l) < length l)%nat.
Proof.
  induction l as [|y l IH]; intros Hin Hx.
  - by apply elem_of_nil in Hin.
  - pose proof (List.filter_length_le f l) as Hle.
    apply elem_of_cons in Hin as [<-|Hin]; cbn.
    + rewrite Hx. lia.
    + destruct (f y); cbn; [specialize (IH Hin Hx)|]; lia.
Qed.

Lemma agent_calls_queries w a max_posts qs : forall idx,
  (imap (fun k => call_of max_posts (idx + k)) (zip qs (answers w a max_posts idx qs))).*1
  = imap (fun k q => ((idx + k)%nat, search_prompt q max_posts)) qs.
Proof.
  induction qs as [|q qs IH]; intros idx; [done|].
  cbn. f_equal. rewrite <- (imap_ext (fun k => call_of max_posts (S idx + k))).
  - rewrite IH. apply imap_ext. intros k x _. cbn. by rewrite Nat.add_succ_r.
  - intros k x _. cbn. by rewrite Nat.add_succ_r.
Qed.

(** C4. When the call for the query of index [idx] raises [e], the run still
    returns normally, with no lead and no post; the exception is shown as a
    warning naming that query and no run-level error is shown; [agent.run] is
    called once for every query of the list, in order; and [total_posts]
    counts [max_posts_per_query] for each call that returned, the failed one
    adding nothing. *)
Theorem C4_query_failure_does_not_abort_run w qs i ss idx prompt e :
  (idx, prompt, inl e) ∈ agent_calls (run_trace (run_pipeline w qs i ss)) ->
  let r := run_pipeline w qs i ss in
  run_leads r = Some [] /\ run_posts r = Some []
  /\ errors (run_trace r) = []
  /\ run_stats r !! "last_search" = Some (VStr (now w))
  /\ (exists q, qs !! idx = Some q
                /\ prompt = search_prompt q (max_posts_per_query i)
                /\ MsgQueryError q e ∈ warnings (run_trace r))
  /\ (agent_calls (run_trace r)).*1
     = imap (fun j q => (j, search_prompt q (max_posts_per_query i))) qs
  /\ counter (run_stats r) "total_posts"
     = Some (max_posts_per_query i * Z.of_nat (successful_queries (run_trace r)))
  /\ (successful_queries (run_trace r) < length qs)%nat.
Proof.
  intros Hin r. subst r. revert Hin.
  destruct (run_pipeline_cases w qs i ss) as (stats & evs & -> & Hcases).
  unfold run_trace, run_stats, run_leads, run_posts. cbn [fst snd trace].
  intros Hin.
  destruct Hcases as [(e' & _ & _ & _ & Hcalls & _)|(a & _ & Herr & Hcalls & Hwarn & ->)].
  { rewrite Hcalls in Hin. by apply elem_of_nil in Hin. }
  split_and!; try done.
  - rewrite Hcalls in Hin. apply elem_of_lookup_imap in Hin as (k & [q r] & Heq & Hk).
    unfold call_of in Heq. cbn in Heq. injection Heq as -> -> <-.
    exists q. split_and!; try done.
    + apply lookup_zip_with_Some in Hk as (q' & r' & [= <- <-] & Hq & _). done.
    + rewrite Hwarn. apply list_elem_of_omap. exists (q, inl e). split; [|done].
      by apply list_elem_of_lookup_2 with k.
  - rewrite Hcalls. apply (agent_calls_queries w a (max_posts_per_query i) qs 0).
  - unfold successful_queries.
    rewrite <- (agent_calls_length w a (max_posts_per_query i) qs 0).
    change (fun k => call_of (max_posts_per_query i) (0 + k))
      with (call_of (max_posts_per_query i)).
    rewrite <- Hcalls.
    by apply filter_length_lt_of_rejected with (idx, prompt, inl e).
Qed.

Lemma C4_query_failure_witness :
  let r := run_pipeline world_second_fails three_queries sample_inputs initial_session in
  run_leads r = Some [] /\ run_posts r = Some []
  /\ counter (run_stats r) "total_posts" = Some (50 * 2)
  /\ length (agent_calls (run_trace r)) = 3%nat.
Proof.
  assert (Hin : (1%nat, search_prompt (lit "need data visualization software") 50,
                 inl (Exception (lit "429 Too Many Requests")))
                ∈ agent_calls (run_trace (run_pipeline world_second_fails three_queries
                                            sample_inputs initial_session))).
  { apply list_elem_of_lookup_2 with 1%nat. vm_compute. reflexivity. }
  destruct (C4_query_failure_does_not_abort_run _ _ _ _ _ _ _ Hin)
    as (Hl & Hp & _ & _ & _ & Hcalls & Hcount & _).
  split_and!; [exact Hl|exact Hp| |].
  - rewrite Hcount. vm_compute. reflexivity.
  - vm_compute. reflexivity.
Defined.

(** C6. When the construction of the client or of the agent raises, the run
    returns no lead, no post and the statistics it started with, whose three
    counters are zero; the exception is shown once as a run-level error, no
    warning is shown and [agent.run] is never called. *)
Theorem C6_construction_failure_aborts_run w qs i ss :
  construction_failures (run_trace (run_pipeline w qs i ss)) <> [] ->
  let r := run_pipeline w qs i ss in
  run_leads r = Some [] /\ run_posts r = Some []
  /\ run_stats r = initial_stats
  /\ counter (run_stats r) "total_posts" = Some 0
  /\ counter (run_stats r) "analyzed_posts" = Some 0
  /\ counter (run_stats r) "leads_found" = Some 0
  /\ (exists e, construction_failures (run_trace r) = [e]
                /\ errors (run_trace r) = [MsgTrackingError e])
  /\ warnings (run_trace r) = []
  /\ agent_calls (run_trace r) = [].
Proof.
  intros Hfail r. subst r. revert Hfail.
  destruct (run_pipeline_cases w qs i ss) as (stats & evs & -> & Hcases).
  unfold run_trace, run_stats, run_leads, run_posts. cbn [fst snd trace].
  intros Hfail.
  destruct Hcases as [(e & He & Herr & Hwarn & Hcalls & ->)|(a & Hnone & _)];
    [|congruence].
  split_and!; try done. by exists e.
Qed.

Lemma C6_construction_failure_witness :
  let r := run_pipeline world_no_client three_queries sample_inputs initial_session in
  run_leads r = Some [] /\ run_posts r = Some [] /\ run_stats r = initial_stats.
Proof.
  assert (Hfail : construction_failures
                    (run_trace (run_pipeline world_no_client three_queries
                                  sample_inputs initial_session)) <> [])
    by (vm_compute; discriminate).
  destruct (C6_construction_failure_aborts_run _ _ _ _ Hfail) as (Hl & Hp & Hs & _).
  split_and!; [exact Hl|exact Hp|exact Hs].
Defined.

(** ** Strings: [strip] and [split] *)

Lemma truthy_false_iff (s : pystr) : truthy s = false <-> s = [].
Proof. by destruct s. Qed.

Lemma blank_lstrip (s : pystr) : blank (lstrip s) = blank s.
Proof.
  induction s as [|c s IH]; [done|].
  cbn. destruct (isspace c) eqn:Hc; [done|]. cbn. by rewrite Hc.
Qed.

Lemma lstrip_nil_iff (s : pystr) : lstrip s = [] <-> blank s = true.
Proof.
  induction s as [|c s IH]; [done|].
  cbn. destruct (isspace c); [done|]. split; discriminate.
Qed.

Lemma blank_rev (s : pystr) : blank (rev s) = blank s.
Proof.
  unfold blank. induction s as [|c s IH]; [done|].
  cbn. rewrite forallb_app, IH. cbn. rewrite andb_true_r. apply andb_comm.
Qed.

Lemma strip_nil_iff (s : pystr) : strip s = [] <-> blank s = true.
Proof.
  unfold strip, rstrip. rewrite <- blank_lstrip, <- (blank_rev (lstrip s)).
  rewrite <- lstrip_nil_iff. split.
  - intros H. apply (f_equal (@rev N)) in H. by rewrite rev_involutive in H.
  - by intros ->.
Qed.

Lemma truthy_strip (s : pystr) : truthy (strip s) = negb (blank s).
Proof.
  destruct (blank s) eqn:Hb; cbn.
  - apply truthy_false_iff, strip_nil_iff, Hb.
  - destruct (strip s) eqn:Hs; [|done].
    apply strip_nil_iff in Hs. congruence.
Qed.

Lemma blank_split (s : pystr) : forallb blank (split newline s) = blank s.
Proof.
  induction s as [|c s IH]; [done|].
  cbn [split]. destruct (N.eqb c newline) eqn:Hc.
  - apply N.eqb_eq in Hc as ->. cbn [forallb]. by rewrite IH.
  - change (blank (c :: s)) with (isspace c && blank s). rewrite <- IH.
    destruct (split newline s) as [|p ps]; cbn [forallb].
    + change (blank [c]) with (isspace c && true). by rewrite !andb_true_r.
    + change (blank (c :: p)) with (isspace c && blank p). by rewrite andb_assoc.
Qed.

Lemma filter_nil_iff {A} (f : A -> bool) (l : list A) :
  List.filter f l = [] <-> forallb (fun x => negb (f x)) l = true.
Proof.
  induction l as [|x l IH]; [done|].
  cbn. destruct (f x); cbn; [split; discriminate|done].
Qed.

Lemma forallb_not_truthy_strip (qs : list pystr) :
  forallb (fun q => negb (truthy (strip q))) qs = forallb blank qs.
Proof.
  induction qs as [|q qs IH]; [done|].
  cbn. by rewrite IH, truthy_strip, negb_involutive.
Qed.

Lemma search_queries_of_nil_iff (text : pystr) :
  search_queries_of text = [] <-> blank text = true.
Proof.
  unfold search_queries_of. rewrite <- blank_split, <- forallb_not_truthy_strip.
  rewrite <- filter_nil_iff. split.
  - apply map_eq_nil.
  - by intros ->.
Qed.

(** ** The buttons *)

(** The four ways through the search button. *)
Lemma search_button_handler_cases w i s :
  let rejected m :=
    search_button_handler w i s
    = (Returns tt, {| session := session s; stats := stats s;
                      trace := trace s ++ [StError m] |}) in
  (openai_api_key i = [] /\ rejected MsgNeedOpenAIKey)
  \/ (openai_api_key i <> [] /\ missing_credential i /\ rejected MsgNeedXCredentials)
  \/ (~ missing_credential i /\ search_queries_of (search_queries_text i) = []
      /\ rejected MsgNeedQuery)
  \/ (~ missing_credential i /\ search_queries_of (search_queries_text i) <> []
      /\ exists stats evs,
           search_button_handler w i s
           = (Returns tt,
              {| session := {| leads := []; all_posts := []; search_stats := stats |};
                 stats := stats;
                 trace := trace s ++ [StSpinner MsgSearchingSpinner] ++ evs
                          ++ [StInfo MsgNoLeads] |})
           /\ (aborted evs stats
               \/ completed w (search_queries_of (search_queries_text i))
                    (max_posts_per_query i) evs stats)
           /\ external_calls evs <> []).
Proof.
  intros rejected. subst rejected. unfold search_button_handler, missing_credential.
  destruct i as [key ck cs tok toks bt text max_posts min_score]. cbn [openai_api_key
    x_consumer_key x_consumer_secret x_access_token x_access_token_secret
    x_bearer_token search_queries_text max_posts_per_query min_lead_score].
  destruct key as [|k0 key]; [left; by split|right].
  destruct ck as [|c0 ck]; [left; split_and!; [done|tauto|done]|].
  destruct cs as [|c1 cs]; [left; split_and!; [done|tauto|done]|].
  destruct tok as [|c2 tok]; [left; split_and!; [done|tauto|done]|].
  destruct toks as [|c3 toks]; [left; split_and!; [done|tauto|done]|].
  destruct bt as [|c4 bt]; [left; split_and!; [done|tauto|done]|].
  right.
  assert (Hcreds : ~ (k0 :: key = [] \/ c0 :: ck = [] \/ c1 :: cs = []
                      \/ c2 :: tok = [] \/ c3 :: toks = [] \/ c4 :: bt = []))
    by (intros H; repeat destruct H as [H|H]; discriminate).
  cbn [truthy negb orb all_truthy forallb andb].
  rewrite bool_decide_eq_false_2 by done. rewrite truthy_strip, negb_involutive.
  destruct (blank text) eqn:Hblank.
  - left. split_and!; [done| by apply search_queries_of_nil_iff |done].
  - right. split_and!; [done| |].
    + intros H. apply search_queries_of_nil_iff in H. congruence.
    + unfold_monad. cbn [session stats trace].
      match goal with
      | |- context [track_leads_on_x w ?qs ?a ?b ?c ?d ?e ?f ?g ?h ?s0] =>
          destruct (track_leads_on_x_run w qs a b c d e f g h s0)
            as (st & evs & -> & Hcases & Hext)
      end.
      exists st, evs. cbn [session stats trace]. by rewrite <- !app_assoc.
Qed.

Lemma errors_app (tr1 tr2 : list event) : errors (tr1 ++ tr2) = errors tr1 ++ errors tr2.
Proof. apply omap_app. Qed.

Lemma external_calls_app (tr1 tr2 : list event) :
  external_calls (tr1 ++ tr2) = external_calls tr1 ++ external_calls tr2.
Proof. apply List.filter_app. Qed.

Lemma rejection_of_run w qs max_posts evs stats :
  aborted evs stats \/ completed w qs max_posts evs stats ->
  rejection (StSpinner MsgSearchingSpinner :: evs ++ [StInfo MsgNoLeads]) = None.
Proof.
  unfold rejection.
  change (errors (?x :: ?l)) with (errors ([x] ++ l)).
  rewrite !errors_app. cbn [app].
  change (errors [StSpinner MsgSearchingSpinner]) with (@nil message).
  change (errors [StInfo MsgNoLeads]) with (@nil message).
  rewrite app_nil_r. cbn [app].
  by intros [(e & _ & -> & _)|(a & _ & -> & _)].
Qed.

(** C5, as amended. A click on the search button is rejected exactly when a
    required credential is empty or no query remains after trimming: with an
    empty credential it is rejected with the message of a missing credential;
    with all credentials present and no query left it is rejected with the
    message of an empty query set; a rejected click reaches no external
    service and leaves the session as it was, and an accepted one invokes the
    pipeline. *)
Theorem C5_validation_rejects_before_any_call w i ss :
  let r := click_search w i ss in
  let queries := search_queries_of (search_queries_text i) in
  (rejection (trace r.2) <> None <-> missing_credential i \/ queries = [])
  /\ (missing_credential i -> rejection (trace r.2) = Some MissingCredential)
  /\ (~ missing_credential i -> queries = [] ->
      rejection (trace r.2) = Some EmptyQuerySet)
  /\ (missing_credential i \/ queries = [] ->
      r.1 = Returns tt /\ external_calls (trace r.2) = [] /\ session r.2 = ss)
  /\ (~ missing_credential i -> queries <> [] -> external_calls (trace r.2) <> []).
Proof.
  intros r queries. subst r queries. unfold click_search.
  destruct (search_button_handler_cases w i (start ss))
    as [(Hkey & ->)|[(Hkey & Hmiss & ->)|[(Hcreds & Hqs & ->)|(Hcreds & Hqs & Hrun)]]];
    cbn [fst snd trace session start app].
  - assert (Hmiss : missing_credential i) by (by left).
    split_and!; try done; try tauto. split; [tauto|done].
  - split_and!; try done; try tauto. split; [tauto|done].
  - split_and!; try done; try tauto. split; [tauto|done].
  - destruct Hrun as (stats & evs & -> & Hcases & Hext).
    cbn [fst snd trace session start app].
    rewrite (rejection_of_run w _ _ evs stats Hcases).
    split_and!; try done; try tauto.
    intros _ _.
    change (external_calls (?x :: ?l)) with (external_calls ([x] ++ l)).
    rewrite !external_calls_app. cbn [app].
    change (external_calls [StSpinner MsgSearchingSpinner]) with (@nil event).
    change (external_calls [StInfo MsgNoLeads]) with (@nil event).
    by rewrite app_nil_r.
Qed.

Lemma C5_validation_witness :
  rejection (trace (click_search world_ok blank_query_inputs initial_session).2)
  = Some EmptyQuerySet.
Proof.
  apply (C5_validation_rejects_before_any_call world_ok blank_query_inputs initial_session).
  - unfold missing_credential. vm_compute. intros H.
    repeat destruct H as [H|H]; discriminate.
  - vm_compute. reflexivity.
Defined.

(** C5, as stated, fails when a credential is empty and the text of queries is
    empty too: the trimmed list of queries is empty, but the click is rejected
    with the message of a missing credential, not with that of an empty query
    set. *)
Lemma C5_counterexample :
  search_queries_of (search_queries_text empty_inputs) = []
  /\ errors (trace (click_search world_ok empty_inputs initial_session).2)
     = [MsgNeedOpenAIKey]
  /\ rejection (trace (click_search world_ok empty_inputs initial_session).2)
     <> Some EmptyQuerySet.
Proof. vm_compute. split_and!; done. Qed.

(** C9. Whatever the session holds, the clear button sets the leads and the
    posts to the empty list and the statistics to three zero counters and a
    [None] timestamp; this is the session the script starts with. *)
Theorem C9_clear_resets_session (s : state) :
  exists s',
    clear_button_handler s = (Returns tt, s')
    /\ leads (session s') = []
    /\ all_posts (session s') = []
    /\ counter (search_stats (session s')) "total_posts" = Some 0
    /\ counter (search_stats (session s')) "analyzed_posts" = Some 0
    /\ counter (search_stats (session s')) "leads_found" = Some 0
    /\ search_stats (session s') !! "last_search" = Some VNone
    /\ dom (search_stats (session s'))
       = {["total_posts"; "analyzed_posts"; "leads_found"; "last_search"]}
    /\ session s' = initial_session.
Proof.
  eexists. split; [reflexivity|]. cbn [session leads all_posts search_stats].
  split_and!; done.
Qed.

(** One query, a client that finds no post: the run completes with
    [total_posts] at 50, no lead and no post, and the operator is told that no
    lead was found, through [st.info] and not through an error. *)
Example one_query_no_post :
  let r := click_search world_ok sample_inputs initial_session in
  search_queries_of (search_queries_text sample_inputs)
  = [lit "looking for BI dashboard tool"]
  /\ leads (session r.2) = [] /\ all_posts (session r.2) = []
  /\ counter (search_stats (session r.2)) "total_posts" = Some 50
  /\ counter (search_stats (session r.2)) "analyzed_posts" = Some 0
  /\ counter (search_stats (session r.2)) "leads_found" = Some 0
  /\ search_stats (session r.2) !! "last_search" = Some (VStr (now world_ok))
  /\ errors (trace r.2) = [] /\ warnings (trace r.2) = []
  /\ last (trace r.2) = Some (StInfo MsgNoLeads).
Proof. vm_compute. split_and!; reflexivity. Qed.

(** ** Sorting *)

Section ListSortFacts.
Context {A K : Type} (key : A -> K) (le : K -> K -> bool).
Hypothesis le_refl : forall k, le k k = true.
Hypothesis le_total : forall k1 k2, le k1 k2 = true \/ le k2 k1 = true.
Hypothesis le_trans : forall k1 k2 k3, le k1 k2 = true -> le k2 k3 = true -> le k1 k3 = true.

Let ordered (x y : A) : Prop := le (key x) (key y) = true.

Lemma insert_by_perm (x : A) (l : list A) : insert_by key le x l ≡ₚ x :: l.
Proof.
  induction l as [|y l IH]; [done|].
  cbn. destruct (le (key x) (key y)); [done|].
  rewrite IH. apply Permutation_swap.
Qed.

Lemma list_sort_perm (l : list A) : list_sort key le l ≡ₚ l.
Proof.
  induction l as [|x l IH]; [done|].
  change (list_sort key le (x :: l)) with (insert_by key le x (list_sort key le l)).
  by rewrite insert_by_perm, IH.
Qed.

Lemma insert_by_sorted (x : A) (l : list A) :
  StronglySorted ordered l -> StronglySorted ordered (insert_by key le x l).
Proof.
  induction 1 as [|y l Hsorted IH Hall]; cbn.
  - by repeat constructor.
  - destruct (le (key x) (key y)) eqn:Hxy.
    + constructor; [by constructor|].
      constructor; [done|].
      eapply Forall_impl; [exact Hall|]. intros z Hz. by eapply le_trans.
    + constructor; [done|].
      rewrite insert_by_perm. constructor; [|done].
      destruct (le_total (key x) (key y)); [congruence|done].
Qed.

Lemma list_sort_sorted (l : list A) : StronglySorted ordered (list_sort key le l).
Proof.
  induction l as [|x l IH]; [constructor|].
  change (list_sort key le (x :: l)) with (insert_by key le x (list_sort key le l)).
  by apply insert_by_sorted.
Qed.

Lemma list_sort_of_sorted (l : list A) :
  StronglySorted ordered l -> list_sort key le l = l.
Proof.
  induction 1 as [|x l Hsorted IH Hall]; [done|].
  change (list_sort key le (x :: l)) with (insert_by key le x (list_sort key le l)).
  rewrite IH. destruct l as [|y l]; [done|].
  cbn. apply Forall_cons in Hall as [Hxy _]. unfold ordered in Hxy. by rewrite Hxy.
Qed.

Lemma list_sort_idempotent (l : list A) :
  list_sort key le (list_sort key le l) = list_sort key le l.
Proof. apply list_sort_of_sorted, list_sort_sorted. Qed.

End ListSortFacts.

Section ListSortStable.
Context {A K C : Type} `{EqDecision C} (key : A -> K) (le : K -> K -> bool).

(** [cls] groups the elements that the order does not tell apart. *)
Variable cls : A -> C.
Hypothesis cls_le : forall x y, cls x = cls y -> le (key x) (key y) = true.

(** Stability: the elements of any one group come out in the order in which
    they went in. *)
Lemma insert_by_stable (c : C) (x : A) (l : list A) :
  List.filter (fun y => bool_decide (cls y = c)) (insert_by key le x l)
  = List.filter (fun y => bool_decide (cls y = c)) (x :: l).
Proof.
  induction l as [|y l IH]; [done|].
  cbn [insert_by]. destruct (le (key x) (key y)) eqn:Hxy; [done|].
  cbn [List.filter] in *. rewrite IH.
  destruct (bool_decide_reflect (cls x = c)) as [Hx|Hx]; [|done].
  destruct (bool_decide_reflect (cls y = c)) as [Hy|Hy]; [|done].
  rewrite cls_le in Hxy by congruence. discriminate.
Qed.

Lemma list_sort_stable (c : C) (l : list A) :
  List.filter (fun y => bool_decide (cls y = c)) (list_sort key le l)
  = List.filter (fun y => bool_decide (cls y = c)) l.
Proof.
  induction l as [|x l IH]; [done|].
  change (list_sort key le (x :: l)) with (insert_by key le x (list_sort key le l)).
  rewrite insert_by_stable. cbn [List.filter]. by rewrite IH.
Qed.

End ListSortStable.


(** A stable sort is determined by its contract: on keys that the order
    tells apart, the sorted list in which every key keeps its elements in
    their order is unique. Whatever algorithm [list.sort] runs, its result
    is the one of [list_sort]. *)
Section ListSortUnique.
Context {A K : Type} `{EqDecision K} (key : A -> K) (le : K -> K -> bool).
Hypothesis le_total : forall k1 k2, le k1 k2 = true \/ le k2 k1 = true.
Hypothesis le_trans : forall k1 k2 k3, le k1 k2 = true -> le k2 k3 = true -> le k1 k3 = true.
Hypothesis le_antisym : forall k1 k2, le k1 k2 = true -> le k2 k1 = true -> k1 = k2.

Let ordered (x y : A) : Prop := le (key x) (key y) = true.
Let of_key (k : K) (x : A) : bool := bool_decide (key x = k).

Lemma of_key_head (x : A) (l : list A) :
  List.filter (of_key (key x)) (x :: l) = x :: List.filter (of_key (key x)) l.
Proof. cbn. unfold of_key at 1. by rewrite bool_decide_eq_true_2. Qed.

Lemma sorted_stable_unique (l1 l2 : list A) :
  StronglySorted ordered l1 -> StronglySorted ordered l2 ->
  (forall k, List.filter (of_key k) l1 = List.filter (of_key k) l2) ->
  l1 = l2.
Proof.
  intros Hs1. revert l2. induction Hs1 as [|x l1 Hs1 IH Hall1]; intros l2 Hs2 Hsame.
  - destruct l2 as [|y l2]; [done|].
    specialize (Hsame (key y)). rewrite of_key_head in Hsame. discriminate.
  - destruct Hs2 as [|y l2 Hs2 Hall2].
    { specialize (Hsame (key x)). rewrite of_key_head in Hsame. discriminate. }
    assert (Hxy : x = y).
    { pose proof (Hsame (key x)) as Hx. rewrite of_key_head in Hx.
      destruct (decide (key y = key x)) as [Heq|Hne].
      - rewrite <- Heq, of_key_head in Hx. congruence.
      - exfalso. apply Hne.
        assert (Hx2 : In x l2).
        { assert (Hin : In x (List.filter (of_key (key x)) (y :: l2)))
            by (rewrite <- Hx; by left).
          apply List.filter_In in Hin as [[->|Hin] _]; done. }
        assert (Hy1 : In y l1).
        { pose proof (Hsame (key y)) as Hy. rewrite of_key_head in Hy.
          assert (Hin : In y (List.filter (of_key (key y)) (x :: l1)))
            by (rewrite Hy; by left).
          apply List.filter_In in Hin as [[->|Hin] _]; done. }
        rewrite Forall_forall in Hall1, Hall2.
        apply le_antisym.
        + apply Hall2. by apply list_elem_of_In.
        + apply Hall1. by apply list_elem_of_In. }
    subst y. f_equal. apply IH; [done|].
    intros k. specialize (Hsame k). cbn in Hsame.
    destruct (of_key k x); congruence.
Qed.

Lemma list_sort_unique (l l' : list A) :
  StronglySorted ordered l' ->
  (forall k, List.filter (of_key k) l' = List.filter (of_key k) l) ->
  l' = list_sort key le l.
Proof.
  intros Hsorted Hstable. apply sorted_stable_unique; [done| |].
  - by apply list_sort_sorted.
  - intros k. rewrite Hstable. symmetry. apply list_sort_stable.
    intros x y ->. destruct (le_total (key y) (key y)); done.
Qed.

End ListSortUnique.

(** The three orders of the leads tab are total preorders. *)

Lemma Z_leb_total (a b : Z) : (a <=? b) = true \/ (b <=? a) = true.
Proof. lia. Qed.

Lemma Z_leb_trans (a b c : Z) : (a <=? b) = true -> (b <=? c) = true -> (a <=? c) = true.
Proof. lia. Qed.

Lemma Z_geb_refl (a : Z) : Z_geb a a = true.
Proof. unfold Z_geb. lia. Qed.

Lemma Z_geb_total (a b : Z) : Z_geb a b = true \/ Z_geb b a = true.
Proof. unfold Z_geb. lia. Qed.

Lemma Z_geb_trans (a b c : Z) : Z_geb a b = true -> Z_geb b c = true -> Z_geb a c = true.
Proof. unfold Z_geb. lia. Qed.

Lemma pystr_leb_refl (a : pystr) : PyStr.leb a a = true.
Proof.
  induction a as [|x a IH]; [done|].
  cbn. by rewrite N.ltb_irrefl, N.eqb_refl.
Qed.

Lemma pystr_leb_total (a b : pystr) : PyStr.leb a b = true \/ PyStr.leb b a = true.
Proof.
  revert b. induction a as [|x a IH]; intros [|y b]; cbn; auto.
  destruct (N.ltb_spec x y), (N.ltb_spec y x), (N.eqb_spec x y), (N.eqb_spec y x);
    auto; lia.
Qed.

Lemma pystr_leb_trans (a b c : pystr) :
  PyStr.leb a b = true -> PyStr.leb b c = true -> PyStr.leb a c = true.
Proof.
  revert b c. induction a as [|x a IH]; intros [|y b] [|z c]; cbn; try done.
  destruct (N.ltb_spec x y), (N.ltb_spec y z), (N.ltb_spec x z),
    (N.eqb_spec x y), (N.eqb_spec y z), (N.eqb_spec x z);
    try done; try lia.
  apply IH.
Qed.

(** ** Filtering by bucket *)

Lemma bucket_label_in (fs : list string) (z : Z) :
  bool_decide (bucket_label (bucket z) ∈ fs)
  = (py_in High fs || (z <? 8))
    && (py_in Medium fs || negb ((5 <=? z) && (z <? 8)))
    && (py_in Low fs || (5 <=? z)).
Proof.
  unfold bucket, py_in.
  destruct (Z.ltb_spec z 8), (Z.leb_spec 5 z);
    repeat case_bool_decide; try lia; cbn [bucket_label] in *;
    destruct (bool_decide (High ∈ fs)), (bool_decide (Medium ∈ fs)),
      (bool_decide (Low ∈ fs)); try done;
    repeat match goal with
           | H : _ ∈ fs |- _ => apply bool_decide_eq_true_2 in H
           | H : _ ∉ fs |- _ => apply bool_decide_eq_false_2 in H
           end; congruence.
Qed.

Lemma filter_filter {A} (f g : A -> bool) (l : list A) :
  List.filter g (List.filter f l) = List.filter (fun x => f x && g x) l.
Proof.
  induction l as [|x l IH]; [done|].
  cbn. destruct (f x); cbn; [destruct (g x)|]; by rewrite IH.
Qed.

Lemma filter_all {A} (l : list A) : List.filter (fun _ => true) l = l.
Proof. induction l as [|x l IH]; [done|]. cbn. by rewrite IH. Qed.

(** A filter applied under a condition is a filter. *)
Lemma filter_if {A} (b : bool) (f : A -> bool) (l : list A) :
  (if b then List.filter f l else l) = List.filter (fun x => negb b || f x) l.
Proof. destruct b; cbn; [done|]. by rewrite filter_all. Qed.

Lemma filtered_leads_filter_spec (filter_score : list string) (leads : list lead) :
  filtered_leads filter_score leads = filter_spec filter_score leads.
Proof.
  unfold filter_spec. erewrite List.filter_ext; [|intros l; apply bucket_label_in].
  unfold filtered_leads. rewrite !filter_if, !filter_filter.
  apply List.filter_ext. intros l.
  destruct (py_in High filter_score), (py_in Medium filter_score),
    (py_in Low filter_score), (get_score l <? 8), (5 <=? get_score l); done.
Qed.

(** C7. For every list of leads and every selection of bucket labels, the
    three successive filters of the leads tab return exactly the leads whose
    bucket (High from 8, Medium from 5 to 7, Low below 5) is selected, in
    their order. *)
Theorem C7_filter_keeps_selected_buckets (filter_score : list string) (leads : list lead) :
  filtered_leads filter_score leads = filter_spec filter_score leads
  /\ (forall l, l ∈ filtered_leads filter_score leads
                 <-> l ∈ leads /\ bucket_label (bucket (get_score l)) ∈ filter_score)
  /\ (forall z, (bucket z = BHigh <-> 8 <= z)
                 /\ (bucket z = BMedium <-> 5 <= z < 8)
                 /\ (bucket z = BLow <-> z < 5)).
Proof.
  split_and!.
  - apply filtered_leads_filter_spec.
  - intros l. rewrite filtered_leads_filter_spec. unfold filter_spec.
    rewrite !list_elem_of_In, List.filter_In, bool_decide_eq_true.
    by rewrite !list_elem_of_In.
  - intros z. unfold bucket. repeat case_bool_decide; split_and!; split; try done; lia.
Qed.

(** ** The sort of the leads tab *)

Lemma sort_leads_cases (sort_by : string) :
  ((forall ls, sort_leads sort_by ls = list_sort get_score Z_geb ls)
   /\ (forall l, sort_key sort_by l = inl (get_score l))
   /\ (forall l1 l2, sort_le sort_by l1 l2 <-> Z_geb (get_score l1) (get_score l2) = true))
  \/ ((forall ls, sort_leads sort_by ls = list_sort get_score Z.leb ls)
      /\ (forall l, sort_key sort_by l = inl (get_score l))
      /\ (forall l1 l2, sort_le sort_by l1 l2 <-> (get_score l1 <=? get_score l2) = true))
  \/ ((forall ls, sort_leads sort_by ls = list_sort get_author PyStr.leb ls)
      /\ (forall l, sort_key sort_by l = inr (get_author l))
      /\ (forall l1 l2, sort_le sort_by l1 l2
                        <-> PyStr.leb (get_author l1) (get_author l2) = true)).
Proof.
  unfold sort_leads, sort_key, sort_le.
  destruct (bool_decide_reflect (sort_by = "Score (High to Low)"%string)) as [->|_].
  { left. split_and!; try done. intros. unfold Z_geb. lia. }
  destruct (bool_decide_reflect (sort_by = "Score (Low to High)"%string)) as [->|_].
  { right; left. split_and!; try done. intros. lia. }
  right; right. done.
Qed.

Lemma StronglySorted_iff {A} (R1 R2 : A -> A -> Prop) (l : list A) :
  (forall x y, R1 x y <-> R2 x y) -> StronglySorted R1 l -> StronglySorted R2 l.
Proof.
  intros HR. induction 1 as [|x l Hs IH Hall]; constructor; [done|].
  eapply Forall_impl; [exact Hall|]. intros y. apply HR.
Qed.

Lemma sort_leads_idempotent (sort_by : string) (ls : list lead) :
  sort_leads sort_by (sort_leads sort_by ls) = sort_leads sort_by ls.
Proof.
  destruct (sort_leads_cases sort_by) as [(H & _)|[(H & _)|(H & _)]]; rewrite !H.
  - apply list_sort_idempotent; [apply Z_geb_total|apply Z_geb_trans].
  - apply list_sort_idempotent; [apply Z_leb_total|apply Z_leb_trans].
  - apply list_sort_idempotent; [apply pystr_leb_total|apply pystr_leb_trans].
Qed.

Lemma sort_leads_perm (sort_by : string) (ls : list lead) : sort_leads sort_by ls ≡ₚ ls.
Proof.
  destruct (sort_leads_cases sort_by) as [(H & _)|[(H & _)|(H & _)]]; rewrite H;
    apply list_sort_perm.
Qed.

Lemma sort_leads_sorted (sort_by : string) (ls : list lead) :
  StronglySorted (sort_le sort_by) (sort_leads sort_by ls).
Proof.
  destruct (sort_leads_cases sort_by) as [(H & _ & Hle)|[(H & _ & Hle)|(H & _ & Hle)]];
    rewrite H; (eapply StronglySorted_iff; [intros x y; symmetry; apply Hle|]).
  - apply list_sort_sorted; [apply Z_geb_total|apply Z_geb_trans].
  - apply list_sort_sorted; [apply Z_leb_total|apply Z_leb_trans].
  - apply list_sort_sorted; [apply pystr_leb_total|apply pystr_leb_trans].
Qed.

Lemma sort_leads_stable (sort_by : string) (k : Z + pystr) (ls : list lead) :
  List.filter (fun l => bool_decide (sort_key sort_by l = k)) (sort_leads sort_by ls)
  = List.filter (fun l => bool_decide (sort_key sort_by l = k)) ls.
Proof.
  destruct (sort_leads_cases sort_by) as [(H & Hk & _)|[(H & Hk & _)|(H & Hk & _)]];
    rewrite H; apply list_sort_stable; intros x y; rewrite !Hk; intros [= ->].
  - apply Z_geb_refl.
  - apply Z.leb_refl.
  - apply pystr_leb_refl.
Qed.

Lemma pystr_leb_antisym (a b : pystr) :
  PyStr.leb a b = true -> PyStr.leb b a = true -> a = b.
Proof.
  revert b. induction a as [|x a IH]; intros [|y b]; cbn; try done.
  destruct (N.ltb_spec x y), (N.ltb_spec y x), (N.eqb_spec x y), (N.eqb_spec y x);
    try done; try lia.
  intros Hab Hba. subst y. f_equal. by apply IH.
Qed.

Lemma filter_inl_key {A} (f : A -> Z) (k : Z) (l : list A) :
  List.filter (fun x => bool_decide (inl (f x) = (inl k : Z + pystr))) l
  = List.filter (fun x => bool_decide (f x = k)) l.
Proof.
  apply List.filter_ext. intros x. apply bool_decide_ext. split; [by intros [= ->]|by intros ->].
Qed.

Lemma filter_inr_key {A} (f : A -> pystr) (k : pystr) (l : list A) :
  List.filter (fun x => bool_decide (inr (f x) = (inr k : Z + pystr))) l
  = List.filter (fun x => bool_decide (f x = k)) l.
Proof.
  apply List.filter_ext. intros x. apply bool_decide_ext. split; [by intros [= ->]|by intros ->].
Qed.

(** The result of the sort is the only list in the order asked for in which
    the leads of every key keep the order they had in the input. *)
Lemma sort_leads_unique (sort_by : string) (ls shown : list lead) :
  StronglySorted (sort_le sort_by) shown ->
  (forall k, List.filter (fun l => bool_decide (sort_key sort_by l = k)) shown
             = List.filter (fun l => bool_decide (sort_key sort_by l = k)) ls) ->
  shown = sort_leads sort_by ls.
Proof.
  intros Hsorted Hstable.
  destruct (sort_leads_cases sort_by) as [(H & Hk & Hle)|[(H & Hk & Hle)|(H & Hk & Hle)]];
    rewrite H.
  - apply list_sort_unique.
    + apply Z_geb_total.
    + apply Z_geb_trans.
    + unfold Z_geb. lia.
    + eapply StronglySorted_iff; [apply Hle|done].
    + intros k. rewrite <- !filter_inl_key.
      rewrite <- (List.filter_ext _ _ (fun l => f_equal (fun c => bool_decide (c = inl k)) (Hk l))).
      rewrite Hstable. apply List.filter_ext. intros l. by rewrite Hk.
  - apply list_sort_unique.
    + apply Z_leb_total.
    + apply Z_leb_trans.
    + lia.
    + eapply StronglySorted_iff; [apply Hle|done].
    + intros k. rewrite <- !filter_inl_key.
      rewrite <- (List.filter_ext _ _ (fun l => f_equal (fun c => bool_decide (c = inl k)) (Hk l))).
      rewrite Hstable. apply List.filter_ext. intros l. by rewrite Hk.
  - apply list_sort_unique.
    + apply pystr_leb_total.
    + apply pystr_leb_trans.
    + apply pystr_leb_antisym.
    + eapply StronglySorted_iff; [apply Hle|done].
    + intros k. rewrite <- !filter_inr_key.
      rewrite <- (List.filter_ext _ _ (fun l => f_equal (fun c => bool_decide (c = inr k)) (Hk l))).
      rewrite Hstable. apply List.filter_ext. intros l. by rewrite Hk.
Qed.

Lemma filter_idempotent {A} (f : A -> bool) (l : list A) :
  List.filter f (List.filter f l) = List.filter f l.
Proof.
  rewrite filter_filter. apply List.filter_ext. intros x. by destruct (f x).
Qed.

Lemma filtered_leads_idempotent (filter_score : list string) (ls : list lead) :
  filtered_leads filter_score (filtered_leads filter_score ls)
  = filtered_leads filter_score ls.
Proof. rewrite !filtered_leads_filter_spec. apply filter_idempotent. Qed.

(** ** The leads tab on the store *)

Section StoreFacts.
Import Store.

(** [n0] is the size of the store when the tab starts: the lists below it
    belong to the session. *)
Variable n0 : nat.

Lemma comprehension_step (b : bool) (p : lead -> bool) (fl : addr) (h : store)
    (cur : list lead) :
  (n0 <= fl)%nat -> h !! fl = Some cur ->
  exists fl' h',
    (if b then comprehension p fl h else Some (fl, h)) = Some (fl', h')
    /\ (n0 <= fl')%nat
    /\ h' !! fl' = Some (if b then List.filter p cur else cur)
    /\ (forall a, (a < n0)%nat -> h' !! a = h !! a).
Proof.
  intros Hn Hcur. destruct b; [|by exists fl, h].
  unfold comprehension, alloc. rewrite Hcur. cbn.
  apply lookup_lt_Some in Hcur as Hlt.
  eexists _, _. split_and!; [done|lia| |].
  - by rewrite lookup_app_r, Nat.sub_diag by lia.
  - intros a Ha. apply lookup_app_l. lia.
Qed.

Lemma update_step (f : list lead -> list lead) (fl : addr) (h : store) (cur : list lead) :
  (n0 <= fl)%nat -> h !! fl = Some cur ->
  exists h',
    update fl f h = Some h'
    /\ h' !! fl = Some (f cur)
    /\ (forall a, (a < n0)%nat -> h' !! a = h !! a).
Proof.
  intros Hn Hcur. unfold update. rewrite Hcur. cbn.
  apply lookup_lt_Some in Hcur as Hlt.
  eexists. split_and!; [done| |].
  - by apply list_lookup_insert_eq.
  - intros a Ha. apply list_lookup_insert_ne. lia.
Qed.

End StoreFacts.

Lemma leads_tab_run (session_leads : Store.addr) (sort_by : string)
    (filter_score : list string) (h : Store.store) (ls : list lead) :
  h !! session_leads = Some ls ->
  exists shown h',
    Store.leads_tab session_leads sort_by filter_score h = Some (shown, h')
    /\ shown <> session_leads
    /\ h' !! shown = Some (sort_leads sort_by (filtered_leads filter_score ls))
    /\ (forall a, (a < length h)%nat -> h' !! a = h !! a).
Proof.
  intros Hls. unfold Store.leads_tab, Store.alloc. rewrite Hls. cbn [mbind option_bind].
  apply lookup_lt_Some in Hls as Hlt.
  assert (H0 : (h ++ [ls]) !! length h = Some ls)
    by (by rewrite lookup_app_r, Nat.sub_diag by lia).
  destruct (comprehension_step (length h) (negb (py_in High filter_score))
              (fun l => get_score l <? 8) _ _ _ (Nat.le_refl _) H0)
    as (fl1 & h1 & -> & Hn1 & Hcur1 & Hold1).
  cbn [mbind option_bind].
  destruct (comprehension_step (length h) (negb (py_in Medium filter_score))
              (fun l => negb ((5 <=? get_score l) && (get_score l <? 8))) _ _ _ Hn1 Hcur1)
    as (fl2 & h2 & -> & Hn2 & Hcur2 & Hold2).
  cbn [mbind option_bind].
  destruct (comprehension_step (length h) (negb (py_in Low filter_score))
              (fun l => 5 <=? get_score l) _ _ _ Hn2 Hcur2)
    as (fl3 & h3 & -> & Hn3 & Hcur3 & Hold3).
  cbn [mbind option_bind].
  assert (Hold : forall a, (a < length h)%nat -> h3 !! a = h !! a).
  { intros a Ha. rewrite Hold3, Hold2, Hold1 by done. apply lookup_app_l. lia. }
  unfold sort_leads. fold (filtered_leads filter_score ls) in Hcur3.
  repeat case_bool_decide;
    match goal with
    | |- context [Store.update fl3 ?f h3] =>
        destruct (update_step (length h) f fl3 h3 _ Hn3 Hcur3) as (h4 & -> & Hcur4 & Hold4)
    end;
    cbn [mbind option_bind]; exists fl3, h4;
    (split_and!; [done|lia|done|]);
    intros a Ha; rewrite Hold4 by done; by apply Hold.
Qed.

(** The class of line 527 is the bucket of the score. *)
Lemma score_class_bucket (z : Z) :
  score_class z = match bucket z with
                  | BHigh => "high-score"
                  | BMedium => "medium-score"
                  | BLow => "low-score"
                  end%string.
Proof.
  unfold score_class, bucket.
  destruct (Z.leb_spec 8 z), (Z.leb_spec 5 z); repeat case_bool_decide; try done; lia.
Qed.

Example sort_high_to_low_sample :
  List.map (fun l => (author l, score l)) (sort_leads "Score (High to Low)" sample_leads)
  = [(Some (lit "bob"), Some 9); (Some (lit "dave"), Some 9);
     (Some (lit "alice"), Some 6); (None, Some 3); (Some (lit "carol"), None)].
Proof. vm_compute. reflexivity. Qed.

Example sort_author_sample :
  List.map (fun l => (author l, score l)) (sort_leads "Author A-Z" sample_leads)
  = [(None, Some 3); (Some (lit "alice"), Some 6); (Some (lit "bob"), Some 9);
     (Some (lit "carol"), None); (Some (lit "dave"), Some 9)].
Proof. vm_compute. reflexivity. Qed.

(** C8. The filter and the sort of the leads tab are functions of their
    arguments that leave the list of the session untouched, so that showing
    the tab again gives the same list; filtering twice is filtering once and
    sorting twice is sorting once; the sort is a permutation in the order
    asked for, and it is stable: the leads of any one key (score for the two
    score orders, author for the author order) keep the order they had. *)
Theorem C8_filter_and_sort_are_pure_idempotent_and_stable
    (sort_by : string) (filter_score : list string) (leads : list lead) :
  filtered_leads filter_score (filtered_leads filter_score leads)
  = filtered_leads filter_score leads
  /\ sort_leads sort_by (sort_leads sort_by leads) = sort_leads sort_by leads
  /\ (forall k : Z + pystr,
         List.filter (fun l => bool_decide (sort_key sort_by l = k)) (sort_leads sort_by leads)
         = List.filter (fun l => bool_decide (sort_key sort_by l = k)) leads)
  /\ sort_leads sort_by leads ≡ₚ leads
  /\ StronglySorted (sort_le sort_by) (sort_leads sort_by leads)
  /\ (forall (h : list (list lead)) (session_leads : nat),
         h !! session_leads = Some leads ->
         exists shown h',
           Store.leads_tab session_leads sort_by filter_score h = Some (shown, h')
           /\ h' !! session_leads = Some leads
           /\ h' !! shown = Some (sort_leads sort_by (filtered_leads filter_score leads))
           /\ exists shown2 h2,
                Store.leads_tab session_leads sort_by filter_score h' = Some (shown2, h2)
                /\ h2 !! session_leads = Some leads
                /\ h2 !! shown2 = h' !! shown).
Proof.
  split_and!.
  - apply filtered_leads_idempotent.
  - apply sort_leads_idempotent.
  - intros k. apply sort_leads_stable.
  - apply sort_leads_perm.
  - apply sort_leads_sorted.
  - intros h a Hls.
    destruct (leads_tab_run a sort_by filter_score h leads Hls)
      as (shown & h' & Hrun & _ & Hshown & Hold).
    assert (Hls' : h' !! a = Some leads)
      by (rewrite Hold; [done|by apply lookup_lt_Some in Hls]).
    destruct (leads_tab_run a sort_by filter_score h' leads Hls')
      as (shown2 & h2 & Hrun2 & _ & Hshown2 & Hold2).
    exists shown, h'. split_and!; try done.
    exists shown2, h2. split_and!; try done.
    + rewrite Hold2; [done|by apply lookup_lt_Some in Hls'].
    + by rewrite Hshown, Hshown2.
Qed.

Lemma C8_leads_tab_witness :
  exists shown h',
    Store.leads_tab 0 "Score (High to Low)" [High; Low] [sample_leads] = Some (shown, h')
    /\ h' !! 0%nat = Some sample_leads
    /\ h' !! shown
       = Some (sort_leads "Score (High to Low)" (filtered_leads [High; Low] sample_leads)).
Proof.
  destruct (C8_filter_and_sort_are_pure_idempotent_and_stable
              "Score (High to Low)" [High; Low] sample_leads)
    as (_ & _ & _ & _ & _ & Hstore).
  destruct (Hstore [sample_leads] 0%nat eq_refl) as (shown & h' & Hrun & Hls & Hshown & _).
  exists shown, h'. split_and!; [exact Hrun|exact Hls|exact Hshown].
Defined.

(** ** Leads without a score *)

Lemma filter_map_get_score (f : Z -> bool) (ls : list lead) :
  length (List.filter f (List.map get_score ls))
  = length (List.filter (fun x => f (get_score x)) ls).
Proof.
  induction ls as [|x ls IH]; [done|].
  cbn. destruct (f (get_score x)); cbn; by rewrite IH.
Qed.

Lemma score_counts_lookup (ls : list lead) :
  score_counts ls !! High
  = Some (length (List.filter (fun s => 8 <=? s) (List.map get_score ls)))
  /\ score_counts ls !! Medium
     = Some (length (List.filter (fun s => (5 <=? s) && (s <? 8)) (List.map get_score ls)))
  /\ score_counts ls !! Low
     = Some (length (List.filter (fun s => s <? 5) (List.map get_score ls))).
Proof. unfold score_counts. split_and!; by simplify_map_eq. Qed.

(** C10. A lead without a ['score'] key is given the score 0, which is not
    one of the scores 1 to 10. The score distribution counts it once, under
    Low: with it the Low count is one more than the number of the other
    leads of score below 5, and the High and Medium counts are those of the
    other leads. The filter drops it whenever Low is not selected and keeps
    it whenever Low is selected. In the order of increasing score it is
    shown, only leads of score 0 or less come before it, every lead of
    positive score comes after it, and it never comes after such a lead. *)
Theorem C10_lead_without_score_counts_as_zero (l : lead) :
  score l = None ->
  get_score l = 0 /\ ~ (1 <= get_score l <= 10) /\ bucket (get_score l) = BLow
  /\ (forall before after,
         score_counts (before ++ l :: after) !! Low
         = Some (S (length (List.filter (fun x => get_score x <? 5) (before ++ after))))
         /\ score_counts (before ++ l :: after) !! Medium
            = Some (length (List.filter
                              (fun x => (5 <=? get_score x) && (get_score x <? 8))
                              (before ++ after)))
         /\ score_counts (before ++ l :: after) !! High
            = Some (length (List.filter (fun x => 8 <=? get_score x) (before ++ after)))
         /\ score_counts (before ++ l :: after) !! Low
            = S <$> score_counts (before ++ after) !! Low
         /\ score_counts (before ++ l :: after) !! Medium
            = score_counts (before ++ after) !! Medium
         /\ score_counts (before ++ l :: after) !! High
            = score_counts (before ++ after) !! High)
  /\ (forall filter_score leads,
         Low ∉ filter_score -> l ∉ filtered_leads filter_score leads)
  /\ (forall filter_score leads,
         Low ∈ filter_score -> l ∈ leads -> l ∈ filtered_leads filter_score leads)
  /\ (forall leads,
         l ∈ leads ->
         sort_leads "Score (Low to High)" leads ≡ₚ leads
         /\ exists before after,
              sort_leads "Score (Low to High)" leads = before ++ l :: after
              /\ Forall (fun x => get_score x <= 0) before
              /\ (forall l', l' ∈ leads -> 0 < get_score l' -> l' ∈ after))
  /\ (forall leads before l' after,
         sort_leads "Score (Low to High)" leads = before ++ l' :: after ->
         0 < get_score l' -> l ∉ after).
Proof.
  intros Hscore.
  assert (Hzero : get_score l = 0) by (unfold get_score; by rewrite Hscore).
  assert (Hlow : bucket (get_score l) = BLow) by (by rewrite Hzero).
  split_and!; try done.
  - lia.
  - intros before after.
    destruct (score_counts_lookup (before ++ l :: after)) as (-> & -> & ->).
    destruct (score_counts_lookup (before ++ after)) as (-> & -> & ->).
    rewrite !filter_map_get_score.
    rewrite !List.filter_app, !length_app. cbn. rewrite Hzero. cbn.
    split_and!; f_equal; lia.
  - intros fs ls Hsel Hin. rewrite filtered_leads_filter_spec in Hin.
    unfold filter_spec in Hin.
    apply list_elem_of_In, List.filter_In in Hin as [_ Hin].
    apply bool_decide_eq_true in Hin. by rewrite Hlow in Hin.
  - intros fs ls Hsel Hin. rewrite filtered_leads_filter_spec. unfold filter_spec.
    apply list_elem_of_In, List.filter_In. split; [by apply list_elem_of_In|].
    apply bool_decide_eq_true. by rewrite Hlow.
  - intros ls Hin. split; [apply sort_leads_perm|].
    pose proof (sort_leads_sorted "Score (Low to High)" ls) as Hsorted.
    assert (Hshown : l ∈ sort_leads "Score (Low to High)" ls)
      by (by rewrite sort_leads_perm).
    apply list_elem_of_split in Hshown as (before & after & Hsplit).
    exists before, after. rewrite Hsplit in Hsorted.
    assert (Hbefore : forall x, x ∈ before -> get_score x <= 0).
    { intros x Hx.
      pose proof (StronglySorted_app_1_elem_of _ _ _ x l Hsorted Hx) as Hle.
      unfold sort_le in Hle.
      rewrite bool_decide_eq_false_2, bool_decide_eq_true_2 in Hle by done.
      rewrite <- Hzero. apply Hle. by left. }
    split_and!; [done|by apply Forall_forall|].
    intros l' Hl' Hpos.
    assert (Hshown' : l' ∈ before ++ l :: after)
      by (by rewrite <- Hsplit, sort_leads_perm).
    apply elem_of_app in Hshown' as [Hb|Ha].
    + apply Hbefore in Hb. lia.
    + apply elem_of_cons in Ha as [->|Ha]; [lia|done].
  - intros ls before l' after Hsort Hpos Hin.
    pose proof (sort_leads_sorted "Score (Low to High)" ls) as Hsorted.
    rewrite Hsort in Hsorted.
    apply StronglySorted_app_1_r, StronglySorted_inv in Hsorted as [_ Hall].
    rewrite Forall_forall in Hall. specialize (Hall l Hin).
    unfold sort_le in Hall.
    rewrite bool_decide_eq_false_2, bool_decide_eq_true_2 in Hall by done. lia.
Qed.

Lemma C10_lead_without_score_witness :
  get_score lead_without_score = 0
  /\ score_counts sample_leads !! Low = Some 2%nat
  /\ exists before after,
       sort_leads "Score (Low to High)" sample_leads
       = before ++ lead_without_score :: after
       /\ Forall (fun x => get_score x <= 0) before.
Proof.
  destruct (C10_lead_without_score_counts_as_zero lead_without_score eq_refl)
    as (Hzero & _ & _ & Hcount & _ & _ & Hsort & _).
  split_and!; [exact Hzero| |].
  - exact (proj1 (Hcount [lead_of (Some (lit "bob")) (Some 9)]
                    [lead_of (Some (lit "alice")) (Some 6);
                     lead_of (Some (lit "dave")) (Some 9); lead_of None (Some 3)])).
  - assert (Hin : lead_without_score ∈ sample_leads)
      by (apply list_elem_of_lookup_2 with 1%nat; reflexivity).
    destruct (Hsort sample_leads Hin) as (_ & before & after & Hsplit & Hbefore & _).
    exists before, after. split; [exact Hsplit|exact Hbefore].
Defined.

(** * Further properties *)

(** ** The trace of a run *)

Lemma loop_trace w a max_posts total qs : forall idx s z,
  (length qs <= total)%nat ->
  stats s !! "total_posts" = Some (VInt z) ->
  exists z',
    for_enumerate idx qs (process_query w a max_posts total) s =
      (Returns tt,
       {| session := session s;
          stats := <["total_posts" := VInt z']> (stats s);
          trace := trace s ++ loop_events w a max_posts total idx qs |}).
Proof.
  induction qs as [|q qs IH]; intros idx s z Hlen Hz.
  - exists z. cbn. by rewrite app_nil_r, insert_id, state_eta.
  - cbn [for_enumerate loop_events]. unfold query_events.
    assert (Htotal : total <> 0%nat) by (cbn in Hlen; lia).
    assert (Hlen' : (length qs <= total)%nat) by (cbn in Hlen; lia).
    destruct (agent_run w a idx (search_prompt q max_posts)) as [e|response] eqn:Hrun.
    + pose proof (process_query_raised w a max_posts total idx q s e Htotal Hrun) as Hq.
      set (s1 := {| session := session s; stats := stats s; trace := _ |}) in Hq.
      destruct (IH (S idx) s1 z Hlen' Hz) as (z' & Hloop).
      exists z'. unfold bind. rewrite Hq, Hloop. subst s1. cbn [session stats trace].
      by rewrite <- !app_assoc.
    + pose proof (process_query_returned w a max_posts total idx q s z response
                    Htotal Hrun Hz) as Hq.
      set (s1 := {| session := session s; stats := _; trace := _ |}) in Hq.
      assert (Hz1 : stats s1 !! "total_posts" = Some (VInt (z + max_posts)))
        by (subst s1; cbn; apply lookup_insert_eq).
      destruct (IH (S idx) s1 _ Hlen' Hz1) as (z' & Hloop).
      exists z'. unfold bind. rewrite Hq, Hloop. subst s1. cbn [session stats trace].
      by rewrite <- !app_assoc, insert_insert_eq.
Qed.

Lemma track_leads_on_x_trace w qs key ck cs tok toks bt max_posts min_score s0 :
  exists stats,
    track_leads_on_x w qs key ck cs tok toks bt max_posts min_score s0 =
      (Returns ([], [], stats),
       {| session := session s0; stats := stats;
          trace := trace s0 ++ track_events w qs key ck cs tok toks bt max_posts |}).
Proof.
  unfold track_leads_on_x, initialize_x_client, create_lead_tracker_agent,
    new_XTools, new_Agent, track_events, agent_of, client_of.
  unfold_monad. cbn [session stats trace].
  destruct (XTools_raises w _) as [e|] eqn:HX.
  { cbn [session stats trace]. rewrite <- !app_assoc. cbn [app]. by eexists. }
  destruct (Agent_raises w _) as [e|] eqn:HA.
  { cbn [session stats trace]. rewrite <- !app_assoc. cbn [app]. by eexists. }
  cbn [session stats trace]. rewrite <- !app_assoc. cbn [app].
  match goal with
  | |- context [for_enumerate 0 qs (process_query w ?a max_posts ?t) ?s] =>
      destruct (loop_trace w a max_posts t qs 0 s 0 (Nat.le_refl _) eq_refl)
        as (z' & Hloop);
      rewrite Hloop; clear Hloop
  end.
  cbn [session stats trace]. rewrite <- !app_assoc. cbn [app]. by eexists.
Qed.

Lemma run_trace_track_events w qs i ss :
  run_trace (run_pipeline w qs i ss)
  = track_events w qs (openai_api_key i) (x_consumer_key i) (x_consumer_secret i)
      (x_access_token i) (x_access_token_secret i) (x_bearer_token i)
      (max_posts_per_query i).
Proof.
  unfold run_trace, run_pipeline.
  destruct (track_leads_on_x_trace w qs (openai_api_key i) (x_consumer_key i)
              (x_consumer_secret i) (x_access_token i) (x_access_token_secret i)
              (x_bearer_token i) (max_posts_per_query i) (min_lead_score i) (start ss))
    as (stats & ->).
  done.
Qed.

Section LoopEvents.
Variables (w : world) (a : agent) (max_posts : Z) (total : nat).

Ltac by_turns qs IH :=
  induction qs as [|q qs IH]; intros idx; [done|];
  cbn [loop_events]; unfold query_events;
  destruct (agent_run w a idx (search_prompt q max_posts));
  rewrite !omap_app, IH; cbn [omap list_omap app]; try done.

Lemma loop_progress_updates qs : forall idx,
  progress_updates (loop_events w a max_posts total idx qs)
  = imap (fun k _ => ((idx + k + 1)%nat, total)) qs.
Proof.
  unfold progress_updates. by_turns qs IH.
  all: cbn [imap]; f_equal; [f_equal; lia|];
    apply imap_ext; intros k x _; cbn; f_equal; lia.
Qed.

Lemma loop_searching_statuses qs : forall idx,
  searching_statuses (loop_events w a max_posts total idx qs)
  = imap (fun k q => (q, (idx + k + 1)%nat, total)) qs.
Proof.
  unfold searching_statuses. by_turns qs IH.
  all: cbn [imap]; f_equal; [do 2 f_equal; lia|];
    apply imap_ext; intros k x _; cbn; do 2 f_equal; lia.
Qed.

Lemma loop_logged_errors qs : forall idx,
  logged_errors (loop_events w a max_posts total idx qs)
  = warnings (loop_events w a max_posts total idx qs).
Proof.
  unfold logged_errors, warnings.
  induction qs as [|q qs IH]; intros idx; [done|].
  cbn [loop_events]. unfold query_events.
  destruct (agent_run w a idx (search_prompt q max_posts));
    rewrite !omap_app, IH; done.
Qed.

Lemma loop_warnings_are_query_errors qs : forall idx,
  forallb is_query_error (warnings (loop_events w a max_posts total idx qs)) = true.
Proof.
  unfold warnings.
  induction qs as [|q qs IH]; intros idx; [done|].
  cbn [loop_events]. unfold query_events.
  destruct (agent_run w a idx (search_prompt q max_posts));
    rewrite !omap_app, forallb_app, IH; done.
Qed.

Lemma loop_counted_or_warned qs : forall idx,
  (length (warnings (loop_events w a max_posts total idx qs))
   + successful_queries (loop_events w a max_posts total idx qs))%nat
  = length qs.
Proof.
  induction qs as [|q qs IH]; intros idx; [done|].
  cbn [loop_events]. unfold query_events. specialize (IH (S idx)).
  unfold warnings in *. rewrite successful_queries_app, omap_app, length_app.
  destruct (agent_run w a idx (search_prompt q max_posts)); cbn; lia.
Qed.

Lemma loop_constructs_nothing qs : forall idx,
  client_constructions (loop_events w a max_posts total idx qs) = []
  /\ agent_constructions (loop_events w a max_posts total idx qs) = []
  /\ successes (loop_events w a max_posts total idx qs) = []
  /\ infos (loop_events w a max_posts total idx qs) = []
  /\ errors (loop_events w a max_posts total idx qs) = []
  /\ construction_failures (loop_events w a max_posts total idx qs) = [].
Proof.
  unfold client_constructions, agent_constructions, successes, infos, errors,
    construction_failures.
  induction qs as [|q qs IH]; intros idx; [done|].
  cbn [loop_events]. unfold query_events.
  destruct (IH (S idx)) as (IH1 & IH2 & IH3 & IH4 & IH5 & IH6).
  destruct (agent_run w a idx (search_prompt q max_posts));
    rewrite !omap_app, IH1, IH2, IH3, IH4, IH5, IH6; done.
Qed.

End LoopEvents.

(** Each reading of a trace goes through a concatenation. *)
Lemma progress_updates_app (tr1 tr2 : list event) :
  progress_updates (tr1 ++ tr2) = progress_updates tr1 ++ progress_updates tr2.
Proof. apply omap_app. Qed.

Lemma searching_statuses_app (tr1 tr2 : list event) :
  searching_statuses (tr1 ++ tr2) = searching_statuses tr1 ++ searching_statuses tr2.
Proof. apply omap_app. Qed.

Lemma logged_errors_app (tr1 tr2 : list event) :
  logged_errors (tr1 ++ tr2) = logged_errors tr1 ++ logged_errors tr2.
Proof. apply omap_app. Qed.

Lemma warnings_app (tr1 tr2 : list event) :
  warnings (tr1 ++ tr2) = warnings tr1 ++ warnings tr2.
Proof. apply omap_app. Qed.

Lemma client_constructions_app (tr1 tr2 : list event) :
  client_constructions (tr1 ++ tr2) = client_constructions tr1 ++ client_constructions tr2.
Proof. apply omap_app. Qed.

Lemma agent_constructions_app (tr1 tr2 : list event) :
  agent_constructions (tr1 ++ tr2) = agent_constructions tr1 ++ agent_constructions tr2.
Proof. apply omap_app. Qed.

Lemma successes_app (tr1 tr2 : list event) :
  successes (tr1 ++ tr2) = successes tr1 ++ successes tr2.
Proof. apply omap_app. Qed.

Lemma infos_app (tr1 tr2 : list event) : infos (tr1 ++ tr2) = infos tr1 ++ infos tr2.
Proof. apply omap_app. Qed.

Lemma construction_failures_app (tr1 tr2 : list event) :
  construction_failures (tr1 ++ tr2)
  = construction_failures tr1 ++ construction_failures tr2.
Proof. apply omap_app. Qed.

(** The three shapes of the trace of a run. *)
Lemma track_events_cases w qs key ck cs tok toks bt max_posts :
  let x := client_of ck cs tok toks bt in
  let a := agent_of key x in
  (exists e,
      XTools_raises w x = Some e
      /\ track_events w qs key ck cs tok toks bt max_posts
         = [StProgress 0 1; StEmpty; StatusText MsgInitializingClient;
            NewXTools x (Some e); LoggerError (MsgClientInitError e);
            StError (MsgTrackingError e); LoggerError (MsgTrackingError e)])
  \/ (exists e,
         XTools_raises w x = None /\ Agent_raises w a = Some e
         /\ track_events w qs key ck cs tok toks bt max_posts
            = [StProgress 0 1; StEmpty; StatusText MsgInitializingClient;
               NewXTools x None; LoggerInfo MsgClientInitialized;
               StatusText MsgCreatingAgent; NewAgent a (Some e);
               StError (MsgTrackingError e); LoggerError (MsgTrackingError e)])
  \/ (XTools_raises w x = None /\ Agent_raises w a = None
      /\ track_events w qs key ck cs tok toks bt max_posts
         = [StProgress 0 1; StEmpty; StatusText MsgInitializingClient;
            NewXTools x None; LoggerInfo MsgClientInitialized;
            StatusText MsgCreatingAgent; NewAgent a None]
           ++ loop_events w a max_posts (length qs) 0 qs
           ++ [StProgress 1 1; StatusText MsgSearchCompleted]).
Proof.
  intros x a. unfold track_events. fold x. fold a.
  destruct (XTools_raises w x) as [e|]; [left; by exists e|right].
  destruct (Agent_raises w a) as [e|]; [left; by exists e|right].
  done.
Qed.

Ltac track_cases w qs i :=
  rewrite ?run_trace_track_events;
  destruct (track_events_cases w qs (openai_api_key i) (x_consumer_key i)
              (x_consumer_secret i) (x_access_token i) (x_access_token_secret i)
              (x_bearer_token i) (max_posts_per_query i))
    as [(e & HX & ->)|[(e & HX & HA & ->)|(HX & HA & ->)]].

(** X1. The progress bar and the status line. Every value given to the
    progress bar is a fraction with a non-zero denominator that does not
    exceed 1, also for an empty list of queries. When the client and the
    agent are constructed, the bar goes through 0, 1/n, ..., n/n and 1, and
    the status line announces the queries in order, numbered from 1 to n;
    when a construction raises, the bar stays at 0 and no query is
    announced. *)
Theorem X1_progress_is_reported_in_order w qs i ss :
  let tr := run_trace (run_pipeline w qs i ss) in
  Forall (fun nd => (0 < nd.2 /\ nd.1 <= nd.2)%nat) (progress_updates tr)
  /\ (construction_failures tr = [] ->
      progress_updates tr
      = (0%nat, 1%nat) :: imap (fun k _ => ((k + 1)%nat, length qs)) qs ++ [(1%nat, 1%nat)]
      /\ searching_statuses tr = imap (fun k q => (q, (k + 1)%nat, length qs)) qs)
  /\ (construction_failures tr <> [] ->
      progress_updates tr = [(0%nat, 1%nat)] /\ searching_statuses tr = []).
Proof.
  intros tr. subst tr. track_cases w qs i.
  1, 2: split_and!; [by repeat constructor|done|done].
  rewrite !progress_updates_app, !searching_statuses_app, !construction_failures_app.
  rewrite loop_progress_updates, loop_searching_statuses.
  rewrite (proj2 (proj2 (proj2 (proj2 (proj2 (loop_constructs_nothing _ _ _ _ _ _)))))).
  cbn [progress_updates searching_statuses construction_failures omap list_omap app].
  rewrite app_nil_r.
  split_and!; [|done|done].
  constructor; [cbn; lia|]. apply Forall_app. split; [|repeat constructor].
  apply Forall_forall. intros nd Hnd.
  apply elem_of_lookup_imap in Hnd as (k & q & -> & Hk).
  apply lookup_lt_Some in Hk. cbn. lia.
Qed.

Lemma X1_progress_witness :
  progress_updates
    (run_trace (run_pipeline world_second_fails three_queries sample_inputs initial_session))
  = [(0, 1); (1, 3); (2, 3); (3, 3); (1, 1)]%nat.
Proof.
  refine (proj1 (proj1 (proj2 (X1_progress_is_reported_in_order
                                  world_second_fails three_queries sample_inputs
                                  initial_session)) _)).
  vm_compute. reflexivity.
Defined.

(** X2. Every query is accounted for, and nothing is shown without being
    logged. In every run, the warnings shown are exactly the per-query
    errors written to the log, in the same order, and every run-level error
    shown is written to the log. When the client and the agent are
    constructed, the number of warnings plus the number of calls that
    returned is the number of queries: no query is dropped silently. *)
Theorem X2_every_query_is_counted_or_warned w qs i ss :
  let tr := run_trace (run_pipeline w qs i ss) in
  List.filter is_query_error (logged_errors tr) = warnings tr
  /\ (forall m, m ∈ errors tr -> m ∈ logged_errors tr)
  /\ (construction_failures tr = [] ->
      (length (warnings tr) + successful_queries tr)%nat = length qs).
Proof.
  intros tr. subst tr. track_cases w qs i.
  - split_and!; [done| |done]. intros m Hm. cbn in *.
    apply list_elem_of_singleton in Hm as ->. rewrite !elem_of_cons. auto.
  - split_and!; [done| |done]. intros m Hm. cbn in *.
    apply list_elem_of_singleton in Hm as ->. rewrite !elem_of_cons. auto.
  - rewrite !logged_errors_app, !warnings_app, !errors_app, !successful_queries_app.
    rewrite loop_logged_errors.
    destruct (loop_constructs_nothing w
                (agent_of (openai_api_key i)
                   (client_of (x_consumer_key i) (x_consumer_secret i) (x_access_token i)
                      (x_access_token_secret i) (x_bearer_token i)))
                (max_posts_per_query i) (length qs) qs 0) as (_ & _ & _ & _ & -> & _).
    cbn [logged_errors warnings errors omap list_omap app List.filter].
    rewrite app_nil_r.
    split_and!.
    + apply forallb_filter_id, loop_warnings_are_query_errors.
    + intros m Hm. by apply elem_of_nil in Hm.
    + intros _.
      change (successful_queries [StProgress 1 1; StatusText MsgSearchCompleted])
        with 0%nat.
      match goal with
      | |- context [successful_queries (?a :: ?b :: ?c :: ?d :: ?e :: ?f :: [?g])] =>
          change (successful_queries (a :: b :: c :: d :: e :: f :: [g])) with 0%nat
      end.
      rewrite Nat.add_0_r. cbn [Nat.add]. apply loop_counted_or_warned.
Qed.

Lemma X2_counted_or_warned_witness :
  (length (warnings (run_trace (run_pipeline world_second_fails three_queries
                                  sample_inputs initial_session)))
   + successful_queries (run_trace (run_pipeline world_second_fails three_queries
                                      sample_inputs initial_session)))%nat
  = 3%nat.
Proof.
  refine (proj2 (proj2 (X2_every_query_is_counted_or_warned
                          world_second_fails three_queries sample_inputs
                          initial_session)) _).
  vm_compute. reflexivity.
Defined.

(** X3. The client and the agent of a run. Every run asks for exactly one
    client, built from the five credentials it was given, with
    [wait_on_rate_limit] and [include_post_metrics] set; it asks for an
    agent only when the client was constructed, and then for exactly one,
    on the model gpt-4o, with the key it was given and that client as its
    only tool; and [agent.run] is called only when both were constructed. *)
Theorem X3_one_client_waiting_on_rate_limit w qs i ss :
  let tr := run_trace (run_pipeline w qs i ss) in
  let x := client_of (x_consumer_key i) (x_consumer_secret i) (x_access_token i)
             (x_access_token_secret i) (x_bearer_token i) in
  client_constructions tr = [x]
  /\ wait_on_rate_limit x = true /\ include_post_metrics x = true
  /\ agent_constructions tr
     = match XTools_raises w x with
       | Some _ => []
       | None => [agent_of (openai_api_key i) x]
       end
  /\ (forall a, a ∈ agent_constructions tr ->
        tools a = [x] /\ api_key a = openai_api_key i /\ model_id a = lit "gpt-4o")
  /\ (agent_calls tr <> [] -> construction_failures tr = []).
Proof.
  intros tr x. subst tr x. track_cases w qs i; rewrite HX.
  - split_and!; try done. intros a Ha. by apply elem_of_nil in Ha.
  - split_and!; try done. intros a Ha. cbn in Ha. by apply list_elem_of_singleton in Ha as ->.
  - rewrite !client_constructions_app, !agent_constructions_app,
      !construction_failures_app.
    destruct (loop_constructs_nothing w
                (agent_of (openai_api_key i)
                   (client_of (x_consumer_key i) (x_consumer_secret i) (x_access_token i)
                      (x_access_token_secret i) (x_bearer_token i)))
                (max_posts_per_query i) (length qs) qs 0)
      as (-> & -> & _ & _ & _ & ->).
    split_and!; try done.
    intros a Ha. cbn in Ha. by apply list_elem_of_singleton in Ha as ->.
Qed.

Lemma X3_one_client_witness :
  construction_failures
    (run_trace (run_pipeline world_second_fails three_queries sample_inputs initial_session))
  = [].
Proof.
  refine (proj2 (proj2 (proj2 (proj2 (proj2 (X3_one_client_waiting_on_rate_limit
            world_second_fails three_queries sample_inputs initial_session))))) _).
  vm_compute. discriminate.
Defined.

(** ** The search button and the tabs *)

Lemma track_leads_on_x_full w qs key ck cs tok toks bt max_posts min_score s0 :
  exists stats,
    track_leads_on_x w qs key ck cs tok toks bt max_posts min_score s0 =
      (Returns ([], [], stats),
       {| session := session s0; stats := stats;
          trace := trace s0 ++ track_events w qs key ck cs tok toks bt max_posts |})
    /\ (aborted (track_events w qs key ck cs tok toks bt max_posts) stats
        \/ completed w qs max_posts (track_events w qs key ck cs tok toks bt max_posts)
             stats).
Proof.
  destruct (track_leads_on_x_trace w qs key ck cs tok toks bt max_posts min_score s0)
    as (st & Htrace).
  destruct (track_leads_on_x_run w qs key ck cs tok toks bt max_posts min_score s0)
    as (st' & evs & Hrun & Hcases & _).
  rewrite Htrace in Hrun.
  assert (Hst : st = st') by (by injection Hrun).
  assert (Hevs : trace s0 ++ track_events w qs key ck cs tok toks bt max_posts
                 = trace s0 ++ evs) by (by injection Hrun).
  apply app_inv_head in Hevs. subst st' evs. by exists st.
Qed.

(** The statistics of a run depend on what it did only. *)
Lemma stats_determined w qs max_posts evs st1 st2 :
  aborted evs st1 \/ completed w qs max_posts evs st1 ->
  aborted evs st2 \/ completed w qs max_posts evs st2 ->
  st1 = st2.
Proof.
  intros [(e1 & Hf1 & _ & _ & _ & ->)|(a1 & Hf1 & _ & _ & _ & ->)]
         [(e2 & Hf2 & _ & _ & _ & ->)|(a2 & Hf2 & _ & _ & _ & ->)];
    congruence.
Qed.

Lemma search_button_handler_accepted w i s :
  ~ missing_credential i ->
  search_queries_of (search_queries_text i) <> [] ->
  let evs := track_events w (search_queries_of (search_queries_text i))
               (openai_api_key i) (x_consumer_key i) (x_consumer_secret i)
               (x_access_token i) (x_access_token_secret i) (x_bearer_token i)
               (max_posts_per_query i) in
  exists stats,
    search_button_handler w i s
    = (Returns tt,
       {| session := {| leads := []; all_posts := []; search_stats := stats |};
          stats := stats;
          trace := trace s ++ [StSpinner MsgSearchingSpinner] ++ evs ++ [StInfo MsgNoLeads] |})
    /\ (aborted evs stats
        \/ completed w (search_queries_of (search_queries_text i))
             (max_posts_per_query i) evs stats).
Proof.
  intros Hcreds Hqs evs. subst evs. unfold search_button_handler, missing_credential in *.
  destruct i as [key ck cs tok toks bt text max_posts min_score]. cbn [openai_api_key
    x_consumer_key x_consumer_secret x_access_token x_access_token_secret
    x_bearer_token search_queries_text max_posts_per_query min_lead_score] in *.
  destruct key as [|k0 key]; [tauto|].
  destruct ck as [|c0 ck]; [tauto|].
  destruct cs as [|c1 cs]; [tauto|].
  destruct tok as [|c2 tok]; [tauto|].
  destruct toks as [|c3 toks]; [tauto|].
  destruct bt as [|c4 bt]; [tauto|].
  cbn [truthy negb orb all_truthy forallb andb].
  rewrite bool_decide_eq_false_2 by done. rewrite truthy_strip, negb_involutive.
  destruct (blank text) eqn:Hblank.
  { by apply search_queries_of_nil_iff in Hblank. }
  unfold_monad. cbn [session stats trace].
  match goal with
  | |- context [track_leads_on_x w ?qs ?a ?b ?c ?d ?e ?f ?g ?h ?s0] =>
      destruct (track_leads_on_x_full w qs a b c d e f g h s0) as (st & -> & Hcases)
  end.
  exists st. cbn [session stats trace]. by rewrite <- !app_assoc.
Qed.

Lemma run_shows_no_success w qs i ss :
  successes (run_trace (run_pipeline w qs i ss)) = []
  /\ infos (run_trace (run_pipeline w qs i ss)) = [].
Proof.
  track_cases w qs i; [done|done|].
  rewrite !successes_app, !infos_app.
  destruct (loop_constructs_nothing w
              (agent_of (openai_api_key i)
                 (client_of (x_consumer_key i) (x_consumer_secret i) (x_access_token i)
                    (x_access_token_secret i) (x_bearer_token i)))
              (max_posts_per_query i) (length qs) qs 0)
    as (_ & _ & -> & -> & _).
  done.
Qed.

Lemma run_is_not_a_rejection w qs i ss :
  rejection (StSpinner MsgSearchingSpinner :: run_trace (run_pipeline w qs i ss)
             ++ [StInfo MsgNoLeads]) = None.
Proof.
  destruct (run_pipeline_cases w qs i ss) as (st & evs & Hrun & Hcases).
  unfold run_trace. rewrite Hrun. cbn [snd trace].
  by apply (rejection_of_run w qs (max_posts_per_query i) evs st).
Qed.

(** A click is either rejected by the validation, or runs the pipeline on
    the trimmed queries and stores what it returned. *)
Lemma click_search_cases w i ss :
  let queries := search_queries_of (search_queries_text i) in
  (exists m,
      validation_error_of m <> None
      /\ (missing_credential i \/ queries = [])
      /\ click_search w i ss
         = (Returns tt, {| session := ss; stats := ∅; trace := [StError m] |}))
  \/ (~ missing_credential i /\ queries <> []
      /\ click_search w i ss
         = (Returns tt,
            {| session := {| leads := []; all_posts := [];
                             search_stats := run_stats (run_pipeline w queries i ss) |};
               stats := run_stats (run_pipeline w queries i ss);
               trace := StSpinner MsgSearchingSpinner
                          :: run_trace (run_pipeline w queries i ss)
                          ++ [StInfo MsgNoLeads] |})).
Proof.
  intros queries. subst queries. unfold click_search.
  destruct (search_button_handler_cases w i (start ss))
    as [(Hkey & Hrej)|[(Hkey & Hmiss & Hrej)|[(Hcreds & Hqs & Hrej)|(Hcreds & Hqs & _)]]].
  - left. exists MsgNeedOpenAIKey. split_and!; [done|left; by left|done].
  - left. exists MsgNeedXCredentials. split_and!; [done|by left|done].
  - left. exists MsgNeedQuery. split_and!; [done|by right|done].
  - right. split_and!; [done|done|].
    destruct (search_button_handler_accepted w i (start ss) Hcreds Hqs)
      as (st & -> & Hcases).
    rewrite run_trace_track_events.
    assert (Hst : st = run_stats (run_pipeline w (search_queries_of (search_queries_text i))
                                    i ss)).
    { destruct (run_pipeline_cases w (search_queries_of (search_queries_text i)) i ss)
        as (st' & evs & Hrun & Hcases').
      pose proof (run_trace_track_events w (search_queries_of (search_queries_text i)) i ss)
        as Hevs.
      rewrite Hrun in Hevs |- *. unfold run_trace, run_stats in *. cbn in Hevs |- *.
      subst evs. eapply stats_determined; eassumption. }
    by rewrite <- Hst.
Qed.

(** X4. One click on the search button. The handler never raises and never
    announces found leads. A rejected click leaves the session as it was
    and shows no information message. An accepted click replaces the three
    fields of the session at once, by no lead, no post and the statistics
    that the run returned, and ends on the information that no lead was
    found, also when the run was aborted by a construction that raised:
    what the session held before is then lost. *)
Theorem X4_click_keeps_or_replaces_the_session w i ss :
  let r := click_search w i ss in
  let queries := search_queries_of (search_queries_text i) in
  r.1 = Returns tt
  /\ successes (trace r.2) = []
  /\ (rejection (trace r.2) <> None -> session r.2 = ss /\ infos (trace r.2) = [])
  /\ (rejection (trace r.2) = None ->
      leads (session r.2) = [] /\ all_posts (session r.2) = []
      /\ search_stats (session r.2) = run_stats (run_pipeline w queries i ss)
      /\ infos (trace r.2) = [MsgNoLeads]
      /\ last (trace r.2) = Some (StInfo MsgNoLeads)).
Proof.
  intros r queries. subst r queries.
  destruct (click_search_cases w i ss) as [(m & Hm & _ & ->)|(_ & _ & ->)];
    cbn [fst snd trace session leads all_posts search_stats].
  - split_and!; done.
  - rewrite run_is_not_a_rejection.
    change (successes (?x :: ?l)) with (successes ([x] ++ l)).
    change (infos (?x :: ?l)) with (infos ([x] ++ l)).
    rewrite !successes_app, !infos_app.
    destruct (run_shows_no_success w (search_queries_of (search_queries_text i)) i ss)
      as [-> ->].
    split_and!; try done.
    intros _. split_and!; try done.
    change (?x :: ?l ++ [?y]) with ((x :: l) ++ [y]). apply last_snoc.
Qed.

Lemma X4_click_witness :
  leads (session (click_search world_no_client sample_inputs
                    {| leads := sample_leads; all_posts := [];
                       search_stats := cleared_stats |}).2) = [].
Proof.
  refine (proj1 (proj2 (proj2 (proj2 (X4_click_keeps_or_replaces_the_session
            world_no_client sample_inputs
            {| leads := sample_leads; all_posts := []; search_stats := cleared_stats |})))
            _)).
  vm_compute. reflexivity.
Defined.

(** X5. After a search, nothing to review or to export. Once a click on the
    search button has been accepted, whatever the world answered and
    whatever the session held, the leads tab shows that there is no lead
    yet, the posts tab shows that no post was explored, the export tab
    offers no download, in either format, and the dashboard shows no score
    distribution. *)
Theorem X5_nothing_to_review_or_export_after_a_search
    w i ss sort_by filter_score export_format timestamp :
  rejection (trace (click_search w i ss).2) = None ->
  let ss' := session_after_search w i ss in
  leads_tab_view ss' sort_by filter_score = [NoLeadsYet]
  /\ posts_tab_view ss' = [NoPostsYet]
  /\ export_tab ss' export_format timestamp = [NoLeadsToExport]
  /\ Forall (fun item => match item with ScoreMetric _ _ _ => False | _ => True end)
       (dashboard_tab ss').
Proof.
  unfold session_after_search.
  destruct (click_search_cases w i ss) as [(m & Hm & _ & ->)|(_ & _ & ->)];
    cbn [fst snd trace session].
  - unfold rejection. cbn. intros Hnone. by destruct m.
  - intros _. split_and!; try done.
    unfold dashboard_tab. cbn [leads search_stats]. rewrite app_nil_r.
    apply Forall_app. split; [by repeat constructor|].
    destruct (pyval_truthy _); by repeat constructor.
Qed.

Lemma X5_nothing_to_export_witness :
  export_tab (session_after_search world_ok sample_inputs
                {| leads := sample_leads; all_posts := []; search_stats := cleared_stats |})
    "CSV" (lit "20240101_000000")
  = [NoLeadsToExport].
Proof.
  refine (proj1 (proj2 (proj2 (X5_nothing_to_review_or_export_after_a_search
            world_ok sample_inputs
            {| leads := sample_leads; all_posts := []; search_stats := cleared_stats |}
            "Score (High to Low)" [High] "CSV" (lit "20240101_000000") _)))).
  vm_compute. reflexivity.
Defined.

Lemma run_stats_lookups w qs i ss :
  let r := run_pipeline w qs i ss in
  run_stats r !! "total_posts"
  = Some (VInt (max_posts_per_query i * Z.of_nat (successful_queries (run_trace r))))
  /\ run_stats r !! "analyzed_posts" = Some (VInt 0)
  /\ run_stats r !! "leads_found" = Some (VInt 0)
  /\ run_stats r !! "last_search"
     = match construction_failures (run_trace r) with
       | [] => Some (VStr (now w))
       | _ :: _ => None
       end.
Proof.
  intros r. subst r.
  destruct (run_pipeline_cases w qs i ss) as (st & evs & -> & Hcases).
  unfold run_trace, run_stats. cbn [fst snd trace].
  destruct Hcases as [(e & -> & _ & _ & Hcalls & ->)|(a & -> & _ & _ & _ & ->)].
  - unfold successful_queries. rewrite Hcalls. cbn [List.filter length].
    rewrite Z.mul_0_r. done.
  - split_and!; by simplify_map_eq.
Qed.

(** X6. The dashboard after a search. Once a click has been accepted, the
    dashboard shows as posts searched [max_posts_per_query] times the number
    of queries whose call returned, and always 0 posts analysed and 0 leads
    found; the line of the last search is shown when the run went through
    its queries (and the clock gave a non-empty text), and is not shown when
    a construction raised. *)
Theorem X6_dashboard_after_a_search w i ss :
  rejection (trace (click_search w i ss).2) = None ->
  let tr := run_trace (run_pipeline w (search_queries_of (search_queries_text i)) i ss) in
  dashboard_tab (session_after_search w i ss)
  = [StatBox "Total Posts Searched"
       (VInt (max_posts_per_query i * Z.of_nat (successful_queries tr)));
     StatBox "Posts Analyzed by AI" (VInt 0);
     StatBox "Qualified Leads Found" (VInt 0)]
    ++ match construction_failures tr with
       | [] => if truthy (now w) then [LastSearchInfo (VStr (now w))] else []
       | _ :: _ => []
       end.
Proof.
  unfold session_after_search.
  destruct (click_search_cases w i ss) as [(m & Hm & _ & ->)|(_ & _ & ->)];
    cbn [fst snd trace session].
  - unfold rejection. cbn. intros Hnone. by destruct m.
  - intros _. unfold dashboard_tab. cbn [leads search_stats length].
    destruct (run_stats_lookups w (search_queries_of (search_queries_text i)) i ss)
      as (-> & -> & _ & ->).
    rewrite app_nil_r. cbn [default Z.of_nat]. f_equal.
    by destruct (construction_failures _).
Qed.

Lemma X6_dashboard_witness :
  dashboard_tab (session_after_search world_second_fails
                   (Build_inputs (lit "sk") (lit "ck") (lit "cs") (lit "at") (lit "ats")
                      (lit "bt") default_search_queries_text 50 6)
                   initial_session)
  = [StatBox "Total Posts Searched" (VInt 200);
     StatBox "Posts Analyzed by AI" (VInt 0);
     StatBox "Qualified Leads Found" (VInt 0);
     LastSearchInfo (VStr (lit "2024-01-01 00:00:00"))].
Proof.
  rewrite X6_dashboard_after_a_search by (vm_compute; reflexivity).
  vm_compute. reflexivity.
Defined.

(** ** The dashboard's score distribution *)

Lemma score_partition (scores : list Z) :
  (length (List.filter (fun s => (8 <=? s)%Z) scores)
   + length (List.filter (fun s => (5 <=? s)%Z && (s <? 8)%Z) scores)
   + length (List.filter (fun s => (s <? 5)%Z) scores))%nat
  = length scores.
Proof.
  induction scores as [|s scores IH]; [done|].
  cbn. destruct (Z.leb_spec 8 s), (Z.leb_spec 5 s), (Z.ltb_spec s 8), (Z.ltb_spec s 5);
    cbn; lia.
Qed.

(** X7. The score distribution covers every lead once. For every session
    that holds leads, whatever their scores (also absent, zero, negative or
    above 10), the dashboard ends with the three priority metrics, and they
    add up to the number shown as qualified leads found. *)
Theorem X7_score_distribution_adds_up (ss : session_state) :
  leads ss <> [] ->
  exists before high medium low,
    dashboard_tab ss
    = before ++ [ScoreMetric "High Priority" high "Hot Leads";
                 ScoreMetric "Medium Priority" medium "Warm Leads";
                 ScoreMetric "Low Priority" low "Cold Leads"]
    /\ StatBox "Qualified Leads Found" (VInt (Z.of_nat (high + medium + low))) ∈ before
    /\ (high + medium + low)%nat = length (leads ss)
    /\ Forall (fun item => match item with ScoreMetric _ _ _ => False | _ => True end)
         before.
Proof.
  intros Hleads. unfold dashboard_tab.
  destruct (leads ss) as [|l ls] eqn:Hls; [done|]. rewrite <- Hls. clear Hls Hleads.
  destruct (score_counts_lookup (leads ss)) as (Hh & Hm & Hl).
  rewrite !(lookup_total_correct _ _ _ Hh), !(lookup_total_correct _ _ _ Hm),
    !(lookup_total_correct _ _ _ Hl).
  pose proof (score_partition (List.map get_score (leads ss))) as Hsum.
  rewrite length_map in Hsum.
  eexists _, _, _, _. rewrite app_assoc. split_and!; [reflexivity| | |].
  - rewrite Hsum. rewrite !elem_of_app, !elem_of_cons. auto.
  - exact Hsum.
  - apply Forall_app. split; [by repeat constructor|].
    destruct (pyval_truthy _); by repeat constructor.
Qed.

Lemma X7_score_distribution_witness :
  exists before high medium low,
    dashboard_tab {| leads := sample_leads; all_posts := []; search_stats := cleared_stats |}
    = before ++ [ScoreMetric "High Priority" high "Hot Leads";
                 ScoreMetric "Medium Priority" medium "Warm Leads";
                 ScoreMetric "Low Priority" low "Cold Leads"]
    /\ (high + medium + low)%nat = 5%nat.
Proof.
  destruct (X7_score_distribution_adds_up
              {| leads := sample_leads; all_posts := []; search_stats := cleared_stats |})
    as (before & high & medium & low & Hdash & _ & Hsum & _); [vm_compute; discriminate|].
  exists before, high, medium, low. split; [exact Hdash|exact Hsum].
Defined.

(** ** Filter and sort of the leads tab *)

Lemma filter_sublist {A} (f : A -> bool) (l : list A) : sublist (List.filter f l) l.
Proof.
  induction l as [|x l IH]; [done|].
  cbn. destruct (f x); by constructor.
Qed.

Lemma filter_sublist_mono {A} (f g : A -> bool) (l : list A) :
  (forall x, f x = true -> g x = true) ->
  sublist (List.filter f l) (List.filter g l).
Proof.
  intros Hfg. induction l as [|x l IH]; [done|].
  cbn. destruct (f x) eqn:Hf.
  - rewrite (Hfg x Hf). by constructor.
  - destruct (g x); [by constructor|done].
Qed.

(** X8. What the selection of score ranges does. With the three ranges
    selected (the default) the filter shows every lead, with none of them
    selected it shows none; it never adds, repeats or reorders leads;
    selecting more ranges never hides a lead that was shown; and only the
    set of selected labels matters, not their order or repetition. *)
Theorem X8_filter_follows_the_selection (filter_score : list string) (leads : list lead) :
  (High ∈ filter_score -> Medium ∈ filter_score -> Low ∈ filter_score ->
   filtered_leads filter_score leads = leads)
  /\ (High ∉ filter_score -> Medium ∉ filter_score -> Low ∉ filter_score ->
      filtered_leads filter_score leads = [])
  /\ sublist (filtered_leads filter_score leads) leads
  /\ (forall more, filter_score ⊆ more ->
        sublist (filtered_leads filter_score leads) (filtered_leads more leads))
  /\ (forall other, (forall label, label ∈ filter_score <-> label ∈ other) ->
        filtered_leads filter_score leads = filtered_leads other leads).
Proof.
  rewrite filtered_leads_filter_spec. unfold filter_spec. split_and!.
  - intros HH HM HL. rewrite <- (filter_all leads) at 2. apply List.filter_ext.
    intros l. rewrite bool_decide_eq_true_2; [done|]. by destruct (bucket (get_score l)).
  - intros HH HM HL. apply filter_nil_iff, forallb_forall. intros l _.
    rewrite bool_decide_eq_false_2; [done|]. by destruct (bucket (get_score l)).
  - apply filter_sublist.
  - intros more Hmore. rewrite filtered_leads_filter_spec. unfold filter_spec.
    apply filter_sublist_mono. intros l Hl.
    apply bool_decide_eq_true in Hl. rewrite bool_decide_eq_true_2; [done|].
    by apply Hmore.
  - intros other Hsame. rewrite filtered_leads_filter_spec. unfold filter_spec.
    apply List.filter_ext. intros l. apply bool_decide_ext, Hsame.
Qed.

Lemma X8_filter_default_selection_witness :
  filtered_leads [High; Medium; Low] sample_leads = sample_leads.
Proof.
  apply (X8_filter_follows_the_selection [High; Medium; Low] sample_leads);
    rewrite !elem_of_cons; auto.
Defined.

Lemma StronglySorted_filter {A} (R : A -> A -> Prop) (f : A -> bool) (l : list A) :
  StronglySorted R l -> StronglySorted R (List.filter f l).
Proof.
  induction 1 as [|x l Hs IH Hall]; [constructor|].
  cbn. destruct (f x); [|done]. constructor; [done|].
  rewrite Forall_forall in *. intros y Hy. apply Hall.
  apply list_elem_of_In in Hy. apply List.filter_In in Hy as [Hy _].
  by apply list_elem_of_In.
Qed.

Lemma filter_comm {A} (f g : A -> bool) (l : list A) :
  List.filter f (List.filter g l) = List.filter g (List.filter f l).
Proof. rewrite !filter_filter. apply List.filter_ext. intros x. apply andb_comm. Qed.

Lemma sort_leads_filter (sort_by : string) (f : lead -> bool) (ls : list lead) :
  List.filter f (sort_leads sort_by ls) = sort_leads sort_by (List.filter f ls).
Proof.
  apply sort_leads_unique.
  - apply StronglySorted_filter, sort_leads_sorted.
  - intros k. by rewrite filter_comm, sort_leads_stable, filter_comm.
Qed.

(** X9. Filtering and sorting commute: sorting the filtered leads, as the
    leads tab does, gives the list obtained by filtering the sorted leads,
    for each of the three orders and every selection. *)
Theorem X9_filter_and_sort_commute (sort_by : string) (filter_score : list string)
    (leads : list lead) :
  sort_leads sort_by (filtered_leads filter_score leads)
  = filtered_leads filter_score (sort_leads sort_by leads).
Proof.
  rewrite !filtered_leads_filter_spec. unfold filter_spec.
  symmetry. apply sort_leads_filter.
Qed.

Lemma StronglySorted_rev {A} (R : A -> A -> Prop) (l : list A) :
  StronglySorted R l -> StronglySorted (fun x y => R y x) (rev l).
Proof.
  induction 1 as [|x l Hs IH Hall]; [constructor|].
  cbn. apply StronglySorted_app_2; [|done|by repeat constructor].
  intros y z Hy Hz. apply list_elem_of_singleton in Hz as ->.
  rewrite Forall_forall in Hall. apply Hall.
  apply list_elem_of_In. apply in_rev. by apply list_elem_of_In.
Qed.

Lemma filter_one_key_rev {A C} `{EqDecision C} (f : A -> C) (k : C) (l : list A) :
  NoDup (List.map f l) ->
  rev (List.filter (fun x => bool_decide (f x = k)) l)
  = List.filter (fun x => bool_decide (f x = k)) l.
Proof.
  intros Hnodup.
  assert (Hlen : (length (List.filter (fun x => bool_decide (f x = k)) l) <= 1)%nat).
  { induction l as [|x l IH]; [cbn; lia|].
    cbn in Hnodup. apply NoDup_cons in Hnodup as [Hx Hnodup]. cbn.
    case_bool_decide as Hk; [|by apply IH].
    assert (Hnil : List.filter (fun y => bool_decide (f y = k)) l = []).
    { apply filter_nil_iff, forallb_forall. intros y Hy.
      apply negb_true_iff, bool_decide_eq_false. intros Hyk. apply Hx.
      rewrite Hk, <- Hyk. apply list_elem_of_In, in_map, Hy. }
    rewrite Hnil. cbn. lia. }
  destruct (List.filter _ l) as [|x [|y t]]; cbn in *; [done|done|lia].
Qed.

(** X10. The two score orders. "Score (High to Low)", which sorts with
    [reverse=True], is what one gets by reversing the list, sorting it in
    increasing order and reversing the result: leads of equal score stay in
    the order of the session in both orders. When no two leads have the
    same score, it is the reverse of "Score (Low to High)". *)
Theorem X10_high_to_low_reverses_low_to_high (leads : list lead) :
  sort_leads "Score (High to Low)" leads
  = rev (sort_leads "Score (Low to High)" (rev leads))
  /\ (NoDup (List.map get_score leads) ->
      sort_leads "Score (High to Low)" leads
      = rev (sort_leads "Score (Low to High)" leads)).
Proof.
  assert (Hrev : forall ls,
             rev (sort_leads "Score (Low to High)" (rev ls))
             = sort_leads "Score (High to Low)" ls).
  { intros ls. apply sort_leads_unique.
    - pose proof (sort_leads_sorted "Score (Low to High)" (rev ls)) as Hsorted.
      apply StronglySorted_rev in Hsorted.
      eapply StronglySorted_iff; [|exact Hsorted].
      intros x y. unfold sort_le.
      by rewrite !bool_decide_eq_false_2, !bool_decide_eq_true_2 by done.
    - intros k.
      change (fun l => bool_decide (sort_key "Score (High to Low)" l = k))
        with (fun l => bool_decide (sort_key "Score (Low to High)" l = k)).
      by rewrite List.filter_rev, sort_leads_stable, List.filter_rev, rev_involutive. }
  split; [by rewrite Hrev|].
  intros Hnodup. rewrite <- Hrev. f_equal.
  apply sort_leads_unique; [apply sort_leads_sorted|].
  intros k. rewrite sort_leads_stable, List.filter_rev.
  apply filter_one_key_rev.
  change (List.map (sort_key "Score (Low to High)") leads)
    with (List.map (fun l => (inl (get_score l) : Z + pystr)) leads).
  rewrite <- (List.map_map get_score (fun z => (inl z : Z + pystr))).
  apply (NoDup_fmap_2 (fun z => (inl z : Z + pystr))). exact Hnodup.
Qed.

Lemma X10_distinct_scores_witness :
  sort_leads "Score (High to Low)"
    [lead_of None (Some 3); lead_of None (Some 9); lead_of None (Some 6)]
  = rev (sort_leads "Score (Low to High)"
           [lead_of None (Some 3); lead_of None (Some 9); lead_of None (Some 6)]).
Proof.
  apply (X10_high_to_low_reverses_low_to_high
           [lead_of None (Some 3); lead_of None (Some 9); lead_of None (Some 6)]).
  apply (bool_decide_unpack _). vm_compute. exact I.
Defined.

(** With two leads of the same score, the two orders are not the reverse of
    each other: bob stays before dave in both. *)
Example tied_scores_keep_their_order :
  List.map author (sort_leads "Score (High to Low)" sample_leads)
  <> List.map author (rev (sort_leads "Score (Low to High)" sample_leads)).
Proof. vm_compute. discriminate. Qed.

(** ** The cards of the leads tab *)

Lemma shown_lead_is_selected (sort_by : string) (filter_score : list string)
    (ls : list lead) (l : lead) :
  l ∈ sort_leads sort_by (filtered_leads filter_score ls) ->
  l ∈ ls /\ bucket_label (bucket (get_score l)) ∈ filter_score.
Proof.
  rewrite sort_leads_perm, filtered_leads_filter_spec. unfold filter_spec.
  rewrite !list_elem_of_In, List.filter_In, bool_decide_eq_true.
  by rewrite !list_elem_of_In.
Qed.

(** X11. The cards of the leads tab. For a session that holds leads, the
    tab announces the number of leads it shows and then shows one card per
    lead that passed the filter, in the order of the sort, numbered from 1;
    the card numbered 1 is the only one expanded; every card is that of a
    lead of the session whose score range is selected, and it is coloured
    by that range. At most as many cards are shown as the session holds
    leads. *)
Theorem X11_one_card_per_shown_lead (ss : session_state) (sort_by : string)
    (filter_score : list string) :
  leads ss <> [] ->
  let shown := sort_leads sort_by (filtered_leads filter_score (leads ss)) in
  let view := leads_tab_view ss sort_by filter_score in
  view !! 0%nat = Some (Showing (length shown))
  /\ length view = S (length shown)
  /\ (length shown <= length (leads ss))%nat
  /\ (forall k item,
        view !! S k = Some item ->
        exists l,
          item = Expander (card_of (k + 1) l)
          /\ shown !! k = Some l
          /\ l ∈ leads ss
          /\ bucket_label (bucket (get_score l)) ∈ filter_score
          /\ card_number (card_of (k + 1) l) = S k
          /\ (card_expanded (card_of (k + 1) l) = true <-> k = 0%nat)
          /\ card_score_class (card_of (k + 1) l)
             = match bucket (get_score l) with
               | BHigh => "high-score"
               | BMedium => "medium-score"
               | BLow => "low-score"
               end%string).
Proof.
  intros Hleads shown view. subst shown view. unfold leads_tab_view.
  destruct (leads ss) as [|l0 ls] eqn:Hls; [done|]. rewrite <- Hls. clear Hls Hleads.
  split_and!.
  - done.
  - cbn. by rewrite length_imap.
  - rewrite sort_leads_perm, filtered_leads_filter_spec. apply List.filter_length_le.
  - intros k item Hitem. cbn in Hitem.
    apply list_lookup_imap_Some in Hitem as (l & Hl & ->).
    exists l. split_and!; try done.
    + apply list_elem_of_lookup_2 in Hl. by apply shown_lead_is_selected in Hl as [? _].
    + apply list_elem_of_lookup_2 in Hl. by apply shown_lead_is_selected in Hl as [_ ?].
    + cbn. lia.
    + cbn. rewrite Nat.eqb_eq. lia.
    + apply score_class_bucket.
Qed.

Lemma X11_cards_witness :
  length (leads_tab_view
            {| leads := sample_leads; all_posts := []; search_stats := cleared_stats |}
            "Author A-Z" [High; Low])
  = S (length (sort_leads "Author A-Z" (filtered_leads [High; Low] sample_leads))).
Proof.
  refine (proj1 (proj2 (X11_one_card_per_shown_lead
            {| leads := sample_leads; all_posts := []; search_stats := cleared_stats |}
            "Author A-Z" [High; Low] _))).
  vm_compute. discriminate.
Defined.

(** ** The queries given to the pipeline *)

Lemma lstrip_suffix (s : pystr) : exists pre, s = pre ++ lstrip s.
Proof.
  induction s as [|c s [pre IH]]; [by exists []|].
  cbn. destruct (isspace c); [|by exists []].
  exists (c :: pre). cbn. by rewrite <- IH.
Qed.

Lemma lstrip_head (s : pystr) (c : N) : head (lstrip s) = Some c -> isspace c = false.
Proof.
  induction s as [|d s IH]; [done|].
  cbn. destruct (isspace d) eqn:Hd; [done|]. cbn. by intros [= <-].
Qed.

Lemma lstrip_fixed (s : pystr) :
  (forall c, head s = Some c -> isspace c = false) -> lstrip s = s.
Proof.
  destruct s as [|c s]; [done|]. intros H. cbn. by rewrite (H c eq_refl).
Qed.

Lemma last_rev {A} (l : list A) : last (rev l) = head l.
Proof. destruct l as [|x l]; [done|]. cbn. apply last_snoc. Qed.

Lemma head_rev {A} (l : list A) : head (rev l) = last l.
Proof. by rewrite <- (rev_involutive l) at 2; rewrite last_rev. Qed.

Lemma rstrip_prefix (s : pystr) : exists post, s = rstrip s ++ post.
Proof.
  unfold rstrip. destruct (lstrip_suffix (rev s)) as [pre Hpre].
  exists (rev pre). rewrite <- rev_app_distr, <- Hpre. by rewrite rev_involutive.
Qed.

Lemma rstrip_last (s : pystr) (c : N) : last (rstrip s) = Some c -> isspace c = false.
Proof. unfold rstrip. rewrite last_rev. apply lstrip_head. Qed.

Lemma rstrip_fixed (s : pystr) :
  (forall c, last s = Some c -> isspace c = false) -> rstrip s = s.
Proof.
  intros H. unfold rstrip. rewrite lstrip_fixed; [apply rev_involutive|].
  intros c. rewrite head_rev. apply H.
Qed.

Lemma rstrip_head (s : pystr) (c : N) : head (rstrip s) = Some c -> head s = Some c.
Proof.
  destruct (rstrip_prefix s) as [post Hpost]. rewrite Hpost at 2.
  by destruct (rstrip s).
Qed.

Lemma strip_head (s : pystr) (c : N) : head (strip s) = Some c -> isspace c = false.
Proof. intros H. apply rstrip_head in H. by apply lstrip_head in H. Qed.

Lemma strip_last (s : pystr) (c : N) : last (strip s) = Some c -> isspace c = false.
Proof. apply rstrip_last. Qed.

Lemma strip_fixed (s : pystr) :
  (forall c, head s = Some c -> isspace c = false) ->
  (forall c, last s = Some c -> isspace c = false) ->
  strip s = s.
Proof. intros Hh Hl. unfold strip. by rewrite lstrip_fixed, rstrip_fixed. Qed.

Lemma strip_idempotent (s : pystr) : strip (strip s) = strip s.
Proof. apply strip_fixed; [apply strip_head|apply strip_last]. Qed.

Lemma strip_subseteq (s : pystr) (c : N) : c ∈ strip s -> c ∈ s.
Proof.
  unfold strip. intros Hc.
  destruct (rstrip_prefix (lstrip s)) as [post Hpost].
  destruct (lstrip_suffix s) as [pre Hpre].
  rewrite Hpre, Hpost, !elem_of_app. auto.
Qed.

Lemma split_no_separator (sep : N) (s : pystr) :
  Forall (fun p => sep ∉ p) (split sep s).
Proof.
  induction s as [|c s IH]; [repeat constructor; apply not_elem_of_nil|].
  cbn. destruct (N.eqb_spec c sep) as [->|Hc].
  - constructor; [apply not_elem_of_nil|done].
  - destruct (split sep s) as [|p ps].
    { constructor; [|constructor]. rewrite list_elem_of_singleton. congruence. }
    apply Forall_cons in IH as [Hp Hps]. constructor; [|done].
    rewrite elem_of_cons. intros [?|?]; [congruence|done].
Qed.

Lemma split_fixed (sep : N) (q : pystr) : sep ∉ q -> split sep q = [q].
Proof.
  induction q as [|c q IH]; [done|].
  rewrite not_elem_of_cons. intros [Hc Hq]. cbn.
  destruct (N.eqb_spec c sep) as [->|_]; [done|]. by rewrite IH.
Qed.

Lemma split_app (sep : N) (q t : pystr) :
  sep ∉ q -> split sep (q ++ sep :: t) = q :: split sep t.
Proof.
  induction q as [|c q IH]; cbn.
  - intros _. by rewrite N.eqb_refl.
  - rewrite not_elem_of_cons. intros [Hc Hq].
    destruct (N.eqb_spec c sep) as [->|_]; [done|]. by rewrite IH.
Qed.

Lemma split_join (sep : N) (qs : list pystr) :
  qs <> [] -> Forall (fun q => sep ∉ q) qs -> split sep (str_join [sep] qs) = qs.
Proof.
  induction qs as [|q qs IH]; [done|]. intros _ Hall.
  apply Forall_cons in Hall as [Hq Hall].
  destruct qs as [|q' qs]; cbn [str_join].
  - by apply split_fixed.
  - cbn [app]. rewrite split_app by done. f_equal. by apply IH.
Qed.

(** A query that [search_queries_of] leaves as it is. *)
Lemma search_queries_of_clean (qs : list pystr) :
  Forall (fun q => q <> [] /\ strip q = q) qs ->
  List.map strip (List.filter (fun q => truthy (strip q)) qs) = qs.
Proof.
  induction 1 as [|q qs [Hne Hq] _ IH]; [done|].
  cbn [List.filter]. rewrite Hq. destruct q as [|c q]; [done|].
  cbn [truthy List.map]. by rewrite Hq, IH.
Qed.

Lemma search_queries_of_elem (text q : pystr) :
  q ∈ search_queries_of text ->
  q <> [] /\ exists line, line ∈ split newline text /\ q = strip line.
Proof.
  unfold search_queries_of. rewrite list_elem_of_In, in_map_iff.
  intros (line & Heq & Hline). subst q.
  apply List.filter_In in Hline as [Hline Htruthy].
  split; [by destruct (strip line)|].
  exists line. by rewrite list_elem_of_In.
Qed.

(** X12. The queries given to the pipeline are clean. Whatever the
    operator types in the text area, each query is a line of the text with
    its leading and trailing whitespace removed: it is not empty, holds no
    newline, neither begins nor ends with whitespace, and stripping it again
    changes nothing. There are at most as many queries as lines. *)
Theorem X12_queries_are_trimmed_lines (text q : pystr) :
  q ∈ search_queries_of text ->
  q <> []
  /\ (newline ∉ q)
  /\ (forall c, head q = Some c -> isspace c = false)
  /\ (forall c, last q = Some c -> isspace c = false)
  /\ strip q = q
  /\ (exists line, line ∈ split newline text /\ q = strip line)
  /\ (length (search_queries_of text) <= length (split newline text))%nat.
Proof.
  intros Hq. destruct (search_queries_of_elem text q Hq) as (Hne & line & Hline & ->).
  split_and!.
  - done.
  - intros Hnl. apply strip_subseteq in Hnl.
    pose proof (split_no_separator newline text) as Hall.
    rewrite Forall_forall in Hall. by apply (Hall line).
  - apply strip_head.
  - apply strip_last.
  - apply strip_idempotent.
  - by exists line.
  - unfold search_queries_of. rewrite length_map. apply List.filter_length_le.
Qed.

Lemma X12_queries_witness :
  strip (lit "a b") = lit "a b".
Proof.
  refine (proj1 (proj2 (proj2 (proj2 (proj2
            (X12_queries_are_trimmed_lines
               ([32; 32] ++ lit "a b" ++ [32; 10; 9; 10] ++ lit "c")%N (lit "a b") _)))))).
  apply (bool_decide_unpack _). vm_compute. exact I.
Defined.

(** X13. Writing queries one per line and reading them back. A list of
    clean queries (not empty, without newline, without leading or trailing
    whitespace) joined with newlines, as the default text of the sidebar is
    built, is read back as that same list; and reading is a normal form:
    joining the queries read from any text and reading again gives the same
    queries. *)
Theorem X13_queries_round_trip (qs : list pystr) :
  Forall (fun q => q <> [] /\ (newline ∉ q) /\ strip q = q) qs ->
  search_queries_of (str_join [newline] qs) = qs
  /\ (forall text,
        search_queries_of (str_join [newline] (search_queries_of text))
        = search_queries_of text).
Proof.
  assert (Hround : forall qs,
             Forall (fun q => q <> [] /\ (newline ∉ q) /\ strip q = q) qs ->
             search_queries_of (str_join [newline] qs) = qs).
  { clear qs. intros qs Hall. unfold search_queries_of.
    destruct qs as [|q qs]; [done|].
    rewrite split_join; [|done|].
    - apply search_queries_of_clean. eapply Forall_impl; [exact Hall|].
      by intros q' (Hne & _ & Hq').
    - eapply Forall_impl; [exact Hall|]. by intros q' (_ & Hnl & _). }
  intros Hall. split; [by apply Hround|].
  intros text. apply Hround. apply Forall_forall. intros q Hq.
  destruct (search_queries_of_elem text q Hq) as (Hne & line & Hline & ->).
  split_and!; [done| |apply strip_idempotent].
  intros Hnl. apply strip_subseteq in Hnl.
  pose proof (split_no_separator newline text) as Hsplit.
  rewrite Forall_forall in Hsplit. by apply (Hsplit line).
Qed.

Lemma X13_default_queries_witness :
  search_queries_of default_search_queries_text = default_queries.
Proof.
  apply (X13_queries_round_trip default_queries).
  apply (bool_decide_unpack _). vm_compute. exact I.
Defined.

(** ** What reaches the agent *)

(** X14. The prompt of a query quotes it, so that with the same maximum two
    prompts are equal only for the same query; and the minimum lead score
    of the sidebar reaches neither the prompt nor anything else: two clicks
    that differ in it only make the same calls, show the same messages and
    leave the same session. *)
Theorem X14_prompt_names_the_query_and_ignores_the_minimum_score :
  (forall q1 q2 max_posts,
      search_prompt q1 max_posts = search_prompt q2 max_posts -> q1 = q2)
  /\ (forall w key ck cs tok toks bt text max_posts min1 min2 ss,
        click_search w (Build_inputs key ck cs tok toks bt text max_posts min1) ss
        = click_search w (Build_inputs key ck cs tok toks bt text max_posts min2) ss)
  /\ (forall w qs key ck cs tok toks bt max_posts min1 min2 s,
        track_leads_on_x w qs key ck cs tok toks bt max_posts min1 s
        = track_leads_on_x w qs key ck cs tok toks bt max_posts min2 s).
Proof.
  split_and!; [|reflexivity|reflexivity].
  intros q1 q2 max_posts. unfold search_prompt.
  intros H. do 4 apply app_inv_head in H. by apply app_inv_tail in H.
Qed.

(** ** One turn of the loop *)

(** X15. A turn of the loop raises only on a division by zero. Whatever the
    world answers and whatever the dictionary of statistics holds (also when
    ['total_posts'] is missing or is not an integer, which makes the update
    raise inside the [try]), the turn leaves the session alone, calls
    [agent.run] exactly once and shows a warning exactly when the statistics
    were not updated. When the number of queries it is given is not zero, it
    then moves the progress bar and returns; when it is zero, the division
    of line 364, which is outside the [try], raises [ZeroDivisionError] and
    the progress bar is not moved. *)
Theorem X15_a_turn_of_the_loop_raises_only_on_a_zero_total
    w a max_posts total idx q (s : state) :
  exists s' evs,
    session s' = session s
    /\ trace s' = trace s ++ evs
    /\ length (agent_calls evs) = 1%nat
    /\ ((warnings evs = []
         /\ exists z, stats s !! "total_posts" = Some (VInt z)
                      /\ stats s' = <["total_posts" := VInt (z + max_posts)]> (stats s))
        \/ (length (warnings evs) = 1%nat /\ stats s' = stats s))
    /\ (total <> 0%nat ->
        process_query w a max_posts total idx q s = (Returns tt, s')
        /\ last evs = Some (StProgress (idx + 1) total))
    /\ (total = 0%nat ->
        process_query w a max_posts total idx q s = (Raises ZeroDivisionError, s')
        /\ progress_updates evs = []).
Proof.
  unfold process_query, run_agent, true_div. unfold_monad. cbn [session stats trace].
  destruct total as [|n];
    (destruct (agent_run w a idx (search_prompt q max_posts)) as [e|response];
     cbn [session stats trace];
     [|destruct (stats s !! "total_posts") as [[z| |]|] eqn:Hz]);
    cbn [session stats trace Nat.eqb fst snd]; rewrite <- !app_assoc; cbn [app];
    eexists _, _;
    (split_and!;
     [ | | |
      |intros Htotal; first [by destruct Htotal|split; [reflexivity|]]
      |intros Htotal; first [discriminate Htotal|split; [reflexivity|]] ]).
  all: try reflexivity.
  all: try (by right).
  all: left; split; [done|]; by exists z.
Qed.

Lemma X15_turn_witness :
  (process_query world_second_fails
     (agent_of (lit "sk") (client_of (lit "ck") (lit "cs") (lit "at") (lit "ats") (lit "bt")))
     50 0 1 (lit "need data visualization software") (start initial_session)).1
  = Raises ZeroDivisionError.
Proof.
  destruct (X15_a_turn_of_the_loop_raises_only_on_a_zero_total world_second_fails
              (agent_of (lit "sk")
                 (client_of (lit "ck") (lit "cs") (lit "at") (lit "ats") (lit "bt")))
              50 0 1 (lit "need data visualization software") (start initial_session))
    as (s' & evs & _ & _ & _ & _ & _ & Hzero).
  destruct (Hzero eq_refl) as [-> _]. reflexivity.
Defined.
